(** * A tool-augmented conversational agent: arithmetic, web search, page
      extraction and the assistant/tools graph

    The development embeds [mytools.py] and [myagent.py] and states the
    properties of the specification over that embedding.

    Conventions.
    - A Python [str] is a Rocq [string]: the bytes of its UTF-8 encoding, so
      that an ASCII character is one [ascii] below 128 and any other
      character a run of two to four of them from 128 up. What the
      interpreter's Unicode tables say of a text that is not ASCII (its
      lower-casing, its NFKC form) is a parameter of the [World].
    - A Python [int] is a [Z]; a Python [float] is an IEEE-754 binary64 value,
      a [spec_float] at precision 53 and maximal exponent 1024.
    - A raised exception is the [Raise] result of a computation; [try ... except
      Exception] is [try_except]. *)

From Stdlib Require Import ZArith List String Ascii Bool Lia.
From Stdlib Require Import Floats.SpecFloat.
From stdpp Require Import base option list strings gmap pretty.

Local Open Scope Z_scope.
Local Open Scope string_scope.
Local Open Scope bool_scope.

(** ** Exceptions and fallible computations *)

Inductive exn_class :=
| ValueError
| ZeroDivisionError
| OverflowError
| KeyError
| OtherException.

Record exn := mkExn { exn_cls : exn_class; exn_str : string }.

Inductive result (A : Type) :=
| Ok (a : A)
| Raise (e : exn).
Arguments Ok {A} a.
Arguments Raise {A} e.

#[global] Instance result_ret : MRet result := fun A a => Ok a.

#[global] Instance result_bind : MBind result := fun A B k r =>
  match r with
  | Ok a => k a
  | Raise e => Raise e
  end.

(** [try: r except Exception as e: h e] *)
Definition try_except {A} (r : result A) (h : exn -> result A) : result A :=
  match r with
  | Ok a => Ok a
  | Raise e => h e
  end.

Definition raises {A} (c : exn_class) (r : result A) : Prop :=
  exists msg, r = Raise (mkExn c msg).

(** ** Python numbers *)

Module PyNum.
Local Open Scope Z_scope.

Definition prec : Z := 53.
Definition emax : Z := 1024.

Inductive number :=
| PyInt (z : Z)
| PyFloat (f : spec_float).

Definition float_zero : spec_float := S754_zero false.

(** [float(z)] for an int: the nearest binary64, ties to even; an int beyond
    the range of binary64 raises [OverflowError]. *)
Definition int_to_float (z : Z) : result spec_float :=
  match binary_normalize prec emax z 0 false with
  | S754_infinity _ =>
      Raise (mkExn OverflowError "int too large to convert to float")
  | f => Ok f
  end.

Definition to_float (x : number) : result spec_float :=
  match x with
  | PyInt z => int_to_float z
  | PyFloat f => Ok f
  end.

(** The exact value of a finite float against an int, as [float == int]
    compares them. *)
Definition float_eq_int (f : spec_float) (z : Z) : bool :=
  match f with
  | S754_zero _ => z =? 0
  | S754_finite s m e =>
      let sm := if s then Z.neg m else Z.pos m in
      if 0 <=? e then sm * 2 ^ e =? z else sm =? z * 2 ^ (- e)
  | _ => false
  end.

(** [x == y] *)
Definition py_eq (x y : number) : bool :=
  match x, y with
  | PyInt a, PyInt b => a =? b
  | PyFloat f, PyFloat g => SFeqb f g
  | PyFloat f, PyInt b => float_eq_int f b
  | PyInt a, PyFloat g => float_eq_int g a
  end.

(** A binary operator that is exact on ints and IEEE on floats; a mixed
    pair is computed on floats after the int is converted. *)
Definition arith (zop : Z -> Z -> Z) (fop : spec_float -> spec_float -> spec_float)
    (x y : number) : result number :=
  match x, y with
  | PyInt a, PyInt b => Ok (PyInt (zop a b))
  | _, _ =>
      f ← to_float x;
      g ← to_float y;
      Ok (PyFloat (fop f g))
  end.

Definition py_add : number -> number -> result number :=
  arith Z.add (SFadd prec emax).
Definition py_sub : number -> number -> result number :=
  arith Z.sub (SFsub prec emax).
Definition py_mul : number -> number -> result number :=
  arith Z.mul (SFmul prec emax).

(** [a / b] on ints: the exact quotient rounded once to binary64. *)
Definition int_true_divide (a b : Z) : result spec_float :=
  if b =? 0 then Raise (mkExn ZeroDivisionError "division by zero")
  else if a =? 0 then Ok (S754_zero (b <? 0))
  else
    let '(q, e, l) := SFdiv_core_binary prec emax (Z.abs a) 0 (Z.abs b) 0 in
    match binary_round_aux prec emax (xorb (a <? 0) (b <? 0)) q e l with
    | S754_infinity _ =>
        Raise (mkExn OverflowError "integer division result too large for a float")
    | f => Ok f
    end.

Definition float_true_divide (f g : spec_float) : result spec_float :=
  if SFeqb g float_zero
  then Raise (mkExn ZeroDivisionError "float division by zero")
  else Ok (SFdiv prec emax f g).

Definition py_truediv (x y : number) : result number :=
  match x, y with
  | PyInt a, PyInt b => f ← int_true_divide a b; Ok (PyFloat f)
  | _, _ =>
      f ← to_float x;
      g ← to_float y;
      q ← float_true_divide f g;
      Ok (PyFloat q)
  end.

(** C's [fmod] on binary64: the remainder of the truncated quotient, exact,
    with the sign of the dividend. *)
Definition fmod (f g : spec_float) : spec_float :=
  match f, g with
  | S754_nan, _ | _, S754_nan => S754_nan
  | S754_infinity _, _ => S754_nan
  | _, S754_zero _ => S754_nan
  | S754_zero s, _ => S754_zero s
  | S754_finite _ _ _, S754_infinity _ => f
  | S754_finite s m e, S754_finite _ n d =>
      let c := Z.min e d in
      let r := Z.rem (Z.pos m * 2 ^ (e - c)) (Z.pos n * 2 ^ (d - c)) in
      binary_normalize prec emax (if s then - r else r) c s
  end.

Definition float_sign (f : spec_float) : bool :=
  match f with
  | S754_zero s | S754_infinity s | S754_finite s _ _ => s
  | S754_nan => false
  end.

(** [float_rem]: the remainder takes the sign of the divisor. *)
Definition float_rem (f g : spec_float) : result spec_float :=
  if SFeqb g float_zero
  then Raise (mkExn ZeroDivisionError "float modulo")
  else
    let r := fmod f g in
    if SFeqb r float_zero
    then Ok (S754_zero (float_sign g))
    else if xorb (SFltb g float_zero) (SFltb r float_zero)
         then Ok (SFadd prec emax r g)
         else Ok r.

Definition py_mod (x y : number) : result number :=
  match x, y with
  | PyInt a, PyInt b =>
      if b =? 0
      then Raise (mkExn ZeroDivisionError "integer modulo by zero")
      else Ok (PyInt (a mod b))
  | _, _ =>
      f ← to_float x;
      g ← to_float y;
      r ← float_rem f g;
      Ok (PyFloat r)
  end.

End PyNum.
Import PyNum.

(** ** [mytools.calculator] *)

Definition calculator (a b : number) (operation : string) : result spec_float :=
  result_ ←
    (if (operation =? "add") || (operation =? "sum") then py_add a b
     else if operation =? "subtract" then py_sub a b
     else if operation =? "multiply" then py_mul a b
     else if (operation =? "divide") || (operation =? "div") then
       if py_eq b (PyInt 0)
       then Raise (mkExn ValueError "Cannot divide by zero.")
       else py_truediv a b
     else if (operation =? "modulus") || (operation =? "mod") then py_mod a b
     else
       let err_msg := "Unsupported operation: " ++ operation ++ ". " in
       let err_msg := err_msg ++ "Use one of: add, subtract, multiply, divide, modulus " in
       let err_msg := err_msg ++ "or try the 'wolfram_query' tool for complex math." in
       Raise (mkExn ValueError err_msg));
  to_float result_.

(** ** The outside world: the network, the HTML parser, the Unicode tables

    What the tools reach outside the program is gathered in a [World]: the
    HTTP session, BeautifulSoup's view of a page, the page loader, the host
    validation of [urllib.parse] and the interpreter's Unicode tables. A tool
    is a computation [IO A] that threads the log of the network calls it
    makes and may raise. *)

Definition nl : string := String (ascii_of_nat 10) EmptyString.

Record Response := mkResponse {
  status_code : Z;
  reason : string;
  response_url : string;
  text : string
}.

(** An [<a>] element: its [href] attribute when present, and
    [get_text(strip=True)]. *)
Record Tag := mkTag {
  href : option string;
  get_text : string
}.

(** A [div] of class [result]: [find("a", class_="result__a")] and
    [find("a", class_="result__snippet")]. *)
Record ResultDiv := mkResultDiv {
  find_result__a : option Tag;
  find_result__snippet : option Tag
}.

Inductive net_call :=
| HttpGet (url : string) (headers params : list (string * string)) (timeout : Z)
| PageLoad (url : string).

Record World := mkWorld {
  (** [s.lower()] for a text [s] that is not ASCII *)
  unicode_lower : string -> string;
  (** [unicodedata.normalize("NFKC", s)] *)
  normalize_NFKC : string -> string;
  (** [urllib.parse._check_bracketed_host] *)
  check_bracketed_host : string -> result unit;
  (** [session.get(url, params=..., timeout=...)] *)
  session_get : string -> list (string * string) -> list (string * string) -> Z
                -> result Response;
  (** [BeautifulSoup(html, "html.parser").find_all("div", class_="result")] *)
  soup_find_all_result : string -> result (list ResultDiv);
  (** [WebBaseLoader(url).load()]: the [page_content] of each document *)
  loader_load : string -> result (list string)
}.

Definition IO (A : Type) : Type := list net_call -> result A * list net_call.

#[global] Instance IO_ret : MRet IO := fun A a log => (Ok a, log).

#[global] Instance IO_bind : MBind IO := fun A B k m log =>
  match m log with
  | (Ok a, log') => k a log'
  | (Raise e, log') => (Raise e, log')
  end.

Definition lift {A} (r : result A) : IO A := fun log => (r, log).

(** A network call: it is logged, then answers or raises. *)
Definition perform {A} (c : net_call) (r : result A) : IO A :=
  fun log => (r, (log ++ [c])%list).

(** [try: m except Exception as e: h e] *)
Definition io_try {A} (m : IO A) (h : exn -> IO A) : IO A := fun log =>
  match m log with
  | (Ok a, log') => (Ok a, log')
  | (Raise e, log') => h e log'
  end.

(** [response.raise_for_status()] *)
Definition raise_for_status (r : Response) : result unit :=
  if (400 <=? status_code r)%Z && (status_code r <? 500)%Z then
    Raise (mkExn OtherException
             (pretty (status_code r) ++ " Client Error: " ++ reason r
              ++ " for url: " ++ response_url r))
  else if (500 <=? status_code r)%Z && (status_code r <? 600)%Z then
    Raise (mkExn OtherException
             (pretty (status_code r) ++ " Server Error: " ++ reason r
              ++ " for url: " ++ response_url r))
  else Ok tt.

(** ** Python string methods *)

Module PyStr.

Definition ord (c : ascii) : nat := nat_of_ascii c.

Definition between (lo hi : nat) (c : ascii) : bool :=
  (lo <=? ord c)%nat && (ord c <=? hi)%nat.

(** The ASCII letters and digits: capital letters, small letters, letters,
    digits. *)
Definition isupper (c : ascii) : bool := between 65 90 c.
Definition islower (c : ascii) : bool := between 97 122 c.
Definition isalpha (c : ascii) : bool := isupper c || islower c.
Definition isdigit (c : ascii) : bool := between 48 57 c.

Definition isascii_char (c : ascii) : bool := (ord c <? 128)%nat.

Fixpoint str_forallb (p : ascii -> bool) (s : string) : bool :=
  match s with
  | EmptyString => true
  | String c t => p c && str_forallb p t
  end.

Definition str_existsb (p : ascii -> bool) (s : string) : bool :=
  negb (str_forallb (fun c => negb (p c)) s).

(** [s.isascii()] *)
Definition isascii (s : string) : bool := str_forallb isascii_char s.

Definition lower_char (c : ascii) : ascii :=
  if isupper c then ascii_of_nat (ord c + 32) else c.

(** [s.lower()] for an ASCII text [s]: the letters [A] to [Z] become [a] to
    [z]. *)
Fixpoint ascii_lower (s : string) : string :=
  match s with
  | EmptyString => EmptyString
  | String c t => String (lower_char c) (ascii_lower t)
  end.

(** [s.lower()]: by the ASCII rule for an ASCII text, by the Unicode tables
    for any other. *)
Definition lower (W : World) (s : string) : string :=
  if isascii s then ascii_lower s else unicode_lower W s.

(** [s.lstrip(chars)] for ASCII characters [chars], given by a test. *)
Fixpoint lstrip_by (p : ascii -> bool) (s : string) : string :=
  match s with
  | EmptyString => EmptyString
  | String c t => if p c then lstrip_by p t else s
  end.

(** The UTF-8 encoding of a code point below [2^16]. *)
Definition utf8 (cp : N) : string :=
  if (cp <? 128)%N then String (ascii_of_N cp) EmptyString
  else if (cp <? 2048)%N then
    String (ascii_of_N (192 + cp / 64))
      (String (ascii_of_N (128 + cp mod 64)) EmptyString)
  else
    String (ascii_of_N (224 + cp / 4096))
      (String (ascii_of_N (128 + (cp / 64) mod 64))
         (String (ascii_of_N (128 + cp mod 64)) EmptyString)).

(** The characters [str.isspace] accepts: the ASCII ones, and U+0085,
    U+00A0, U+1680, U+2000 to U+200A, U+2028, U+2029, U+202F, U+205F and
    U+3000. *)
Definition whitespace : list string :=
  map utf8
    [9; 10; 11; 12; 13; 28; 29; 30; 31; 32; 133; 160; 5760;
     8192; 8193; 8194; 8195; 8196; 8197; 8198; 8199; 8200; 8201; 8202;
     8232; 8233; 8239; 8287; 12288]%N.

Fixpoint has_prefix (p s : string) : bool :=
  match p, s with
  | EmptyString, _ => true
  | String a p', String b s' => Ascii.eqb a b && has_prefix p' s'
  | String _ _, EmptyString => false
  end.

(** The length in bytes of the first of the [chars] that [s] begins with. *)
Fixpoint first_prefix (chars : list string) (s : string) : option nat :=
  match chars with
  | [] => None
  | w :: rest =>
      if has_prefix w s then Some (String.length w) else first_prefix rest s
  end.

(** Drops the leading [chars] of [s]; [skip] counts the bytes still to drop
    of the character that is being dropped. *)
Fixpoint lstrip_chars (chars : list string) (skip : nat) (s : string) : string :=
  match s with
  | EmptyString => EmptyString
  | String _ t =>
      match skip with
      | S k => lstrip_chars chars k t
      | O =>
          match first_prefix chars s with
          | Some (S k) => lstrip_chars chars k t
          | _ => s
          end
      end
  end.

(** [s.lstrip()] and [s.rstrip()] *)
Definition lstrip (s : string) : string := lstrip_chars whitespace 0 s.

Definition rstrip (s : string) : string :=
  String.rev (lstrip_chars (map String.rev whitespace) 0 (String.rev s)).

(** [s.strip()] *)
Definition strip (s : string) : string := rstrip (lstrip s).

Fixpoint str_drop (n : nat) (s : string) : string :=
  match n, s with
  | O, _ => s
  | S n', String _ t => str_drop n' t
  | S _, EmptyString => EmptyString
  end.

Fixpoint str_filter (p : ascii -> bool) (s : string) : string :=
  match s with
  | EmptyString => EmptyString
  | String c t => if p c then String c (str_filter p t) else str_filter p t
  end.

(** [c in s] for a one-character [c] *)
Definition has_char (c : ascii) (s : string) : bool :=
  str_existsb (Ascii.eqb c) s.

(** [s.startswith(p)] *)
Definition startswith (s p : string) : bool := String.prefix p s.

(** The text before and after the first [c]: [(s[:i], s[i+1:])] for
    [i = s.find(c)], when [c] occurs. *)
Fixpoint break_at (c : ascii) (s : string) : option (string * string) :=
  match s with
  | EmptyString => None
  | String x t =>
      if Ascii.eqb x c then Some (EmptyString, t)
      else match break_at c t with
           | Some (a, b) => Some (String x a, b)
           | None => None
           end
  end.

(** The longest prefix whose characters satisfy [p], and the rest. *)
Fixpoint span (p : ascii -> bool) (s : string) : string * string :=
  match s with
  | EmptyString => (EmptyString, EmptyString)
  | String x t =>
      if p x then let '(a, b) := span p t in (String x a, b)
      else (EmptyString, s)
  end.

(** [s.partition(sep)] when [sep] occurs: the text before and after its
    first occurrence. *)
Fixpoint partition (sep s : string) : option (string * string) :=
  if String.prefix sep s then Some (EmptyString, str_drop (String.length sep) s)
  else match s with
       | EmptyString => None
       | String x t =>
           match partition sep t with
           | Some (a, b) => Some (String x a, b)
           | None => None
           end
       end.

(** [sep in s] *)
Definition contains (sep s : string) : bool :=
  match partition sep s with Some _ => true | None => false end.

(** [s.split(sep, 1)] *)
Definition split1 (sep s : string) : list string :=
  match partition sep s with
  | Some (a, b) => [a; b]
  | None => [s]
  end.

(** [s.split(c)] for a one-character separator *)
Fixpoint split_char (c : ascii) (s : string) : list string :=
  match s with
  | EmptyString => [EmptyString]
  | String x t =>
      if Ascii.eqb x c then EmptyString :: split_char c t
      else match split_char c t with
           | w :: ws => String x w :: ws
           | [] => [String x EmptyString]
           end
  end.

(** [s.replace(old, new)] for a one-character [old] *)
Fixpoint replace_char (old new : ascii) (s : string) : string :=
  match s with
  | EmptyString => EmptyString
  | String x t =>
      String (if Ascii.eqb x old then new else x) (replace_char old new t)
  end.

(** [str(n)] for a non-negative int *)
Definition str_of_nat (n : nat) : string := pretty (N.of_nat n).

End PyStr.
Import PyStr.

(** ** [urllib.parse]: [urlparse], [parse_qs], [unquote]

    The functions follow CPython's [Lib/urllib/parse.py] (3.11 to 3.13, with
    the check of bracketed hosts of the security releases). The validation
    of a bracketed host ([ipaddress.ip_address] and the IPvFuture pattern,
    which raise [ValueError]) and the NFKC form that [_checknetloc] takes of
    a host that is not ASCII are given by the [World]. *)

Module urllib_parse.

Record ParseResult := mkParseResult {
  scheme : string;
  netloc : string;
  path : string;
  params : string;
  query : string;
  fragment : string
}.

Definition scheme_chars (c : ascii) : bool :=
  isalpha c || isdigit c || has_char c "+-.".

Definition _UNSAFE_URL_BYTES_TO_REMOVE (c : ascii) : bool :=
  (ord c =? 9)%nat || (ord c =? 13)%nat || (ord c =? 10)%nat.

Definition _WHATWG_C0_CONTROL_OR_SPACE (c : ascii) : bool := (ord c <=? 32)%nat.

Definition uses_params : list string :=
  [""; "ftp"; "hdl"; "prospero"; "http"; "imap"; "https"; "shttp"; "rtsp";
   "rtspu"; "sip"; "sips"; "mms"; "sftp"; "tel"].

(** [_splitnetloc(url, 2)]: the text between the leading [//] and the first of
    [/], [?], [#]; and the rest. *)
Definition _splitnetloc (url : string) : string * string :=
  span (fun c => negb (has_char c "/?#")) (str_drop 2 url).

Definition split_or (c : ascii) (s : string) : string * string :=
  match break_at c s with
  | Some (a, b) => (a, b)
  | None => (s, EmptyString)
  end.

(** [s.rpartition(c)[2]]: the text after the last [c], all of [s] when
    there is none. *)
Definition after_last (c : ascii) (s : string) : string :=
  match break_at c (String.rev s) with
  | Some (a, _) => String.rev a
  | None => s
  end.

Section Parse.

Variable W : World.

(** No text may stand before the bracket, and none but a port after it. *)
Definition _check_bracketed_netloc (netloc : string) : result unit :=
  let hostname_and_port := after_last "@" netloc in
  hostname ←
    match break_at "[" hostname_and_port with
    | Some (before_bracket, bracketed) =>
        if negb (String.length before_bracket =? 0)%nat
        then Raise (mkExn ValueError "Invalid IPv6 URL")
        else
          let '(hostname, port) := split_or "]" bracketed in
          if negb (String.length port =? 0)%nat && negb (startswith port ":")
          then Raise (mkExn ValueError "Invalid IPv6 URL")
          else Ok hostname
    | None => Ok (fst (split_or ":" hostname_and_port))
    end;
  check_bracketed_host W hostname.

(** A host that is not ASCII must not turn, under NFKC normalization, into
    a text with one of the delimiters. *)
Definition _checknetloc (netloc : string) : result unit :=
  if (String.length netloc =? 0)%nat || isascii netloc then Ok tt
  else
    let n := str_filter (fun c => negb (has_char c "@:#?")) netloc in
    let netloc2 := normalize_NFKC W n in
    if String.eqb n netloc2 then Ok tt
    else if str_existsb (fun c => has_char c "/?#@:") netloc2
         then Raise (mkExn ValueError
                       ("netloc '" ++ netloc ++ "' contains invalid "
                        ++ "characters under NFKC normalization"))
         else Ok tt.

Definition urlsplit (url : string) : result ParseResult :=
  let url := lstrip_by _WHATWG_C0_CONTROL_OR_SPACE url in
  let url := str_filter (fun c => negb (_UNSAFE_URL_BYTES_TO_REMOVE c)) url in
  let '(scheme, url) :=
    match break_at ":" url with
    | Some (String c0 pre, rest) =>
        if isalpha c0 && str_forallb scheme_chars (String c0 pre)
        then (lower W (String c0 pre), rest)
        else (EmptyString, url)
    | _ => (EmptyString, url)
    end in
  '(netloc, url) ←
    (if startswith url "//" then
       let '(netloc, rest) := _splitnetloc url in
       if    (has_char "[" netloc && negb (has_char "]" netloc))
          || (has_char "]" netloc && negb (has_char "[" netloc))
       then Raise (mkExn ValueError "Invalid IPv6 URL")
       else if has_char "[" netloc && has_char "]" netloc
       then _ ← _check_bracketed_netloc netloc; Ok (netloc, rest)
       else Ok (netloc, rest)
     else Ok (EmptyString, url));
  let '(url, fragment) := split_or "#" url in
  let '(url, query) := split_or "?" url in
  _ ← _checknetloc netloc;
  Ok (mkParseResult scheme netloc url EmptyString query fragment).

(** [_splitparams]: the parameters of the last path segment. *)
Definition _splitparams (url : string) : string * string :=
  match break_at "/" (String.rev url) with
  | Some (last_rev, pre_rev) =>
      match break_at ";" (String.rev last_rev) with
      | Some (a, b) => (String.rev pre_rev ++ "/" ++ a, b)
      | None => (url, EmptyString)
      end
  | None => split_or ";" url
  end.

Definition urlparse (url : string) : result ParseResult :=
  r ← urlsplit url;
  if bool_decide (scheme r ∈ uses_params) && has_char ";" (path r)
  then let '(p, ps) := _splitparams (path r) in
       Ok (mkParseResult (scheme r) (netloc r) p ps (query r) (fragment r))
  else Ok r.

End Parse.

Definition hexval (c : ascii) : option nat :=
  if isdigit c then Some (ord c - 48)%nat
  else if between 65 70 c then Some (ord c - 55)%nat
  else if between 97 102 c then Some (ord c - 87)%nat
  else None.

(** [unquote]: every [%XX] with two hexadecimal digits becomes the character
    of that code; any other [%] stays. (Python decodes a run of escapes from
    [%80] up as UTF-8; the model keeps them as they are, one character each.) *)
Fixpoint unquote (s : string) : string :=
  match s with
  | EmptyString => EmptyString
  | String c t =>
      if Ascii.eqb c "%" then
        match t with
        | String a (String b rest) =>
            match hexval a, hexval b with
            | Some h, Some l => String (ascii_of_nat (16 * h + l)) (unquote rest)
            | _, _ => String c (unquote t)
            end
        | _ => String c (unquote t)
        end
      else String c (unquote t)
  end.

(** [parse_qsl(qs)] with the defaults: fields split at [&]; a field with no
    [=] or a blank value is dropped. *)
Definition parse_qsl (qs : string) : list (string * string) :=
  omap (fun name_value =>
          match break_at "=" name_value with
          | Some (n, v) =>
              if (String.length v =? 0)%nat then None
              else Some (unquote (replace_char "+" " " n),
                         unquote (replace_char "+" " " v))
          | None => None
          end)
       (if (String.length qs =? 0)%nat then [] else split_char "&" qs).

(** [parse_qs(qs)]: each name with the list of its values, in order. *)
Definition parse_qs (qs : string) : gmap string (list string) :=
  foldl (fun (parsed_result : gmap string (list string)) '(name, value) =>
           match parsed_result !! name with
           | Some vs => <[name := (vs ++ [value])%list]> parsed_result
           | None => <[name := [value]]> parsed_result
           end)
        ∅ (parse_qsl qs).

End urllib_parse.
Import urllib_parse.

(** [d[k]] on a dict *)
Definition getitem {V} (d : gmap string V) (k : string) : result V :=
  match d !! k with
  | Some v => Ok v
  | None => Raise (mkExn KeyError ("'" ++ k ++ "'"))
  end.

(** [l[0]] on a list *)
Definition first_item {V} (l : list V) : result V :=
  match l with
  | v :: _ => Ok v
  | [] => Raise (mkExn OtherException "list index out of range")
  end.

(** A search result: the dict with keys [title], [url], [snippet], [domain]. *)
Record SearchResult := mkSearchResult {
  title : string;
  url : string;
  snippet : string;
  domain : string
}.

#[global] Instance SearchResult_eq_dec : EqDecision SearchResult.
Proof. solve_decision. Defined.

Section Tools.

Variable W : World.

(** ** [mytools.WebSearchTool] *)

Record WebSearchTool := mkWebSearchTool {
  max_results : Z;
  session_headers : list (string * string)
}.

Definition WebSearchTool__init__ (max_results : Z) : WebSearchTool :=
  mkWebSearchTool max_results
    [("User-Agent", "Mozilla/5.0 (Windows NT 10.0; Win64; x64) Chrome/120.0.0.0")].

Definition _fetch_search_html (self : WebSearchTool) (query : string) : IO string :=
  let url := "https://html.duckduckgo.com/html" in
  let params := [("q", query); ("kl", "wt-wt")] in
  response ← perform (HttpGet url (session_headers self) params 10)
                     (session_get W url (session_headers self) params 10);
  _ ← lift (raise_for_status response);
  mret (text response).

(** The bare [except] returns the wrapper itself, whatever was raised. *)
Definition _unwrap_ddg_redirect (ddg_url : string) : result string :=
  if startswith ddg_url "https://duckduckgo.com/l/" then
    try_except
      (parsed ← urlparse W ddg_url;
       let query := parse_qs (query parsed) in
       values ← getitem query "uddg";
       value ← first_item values;
       Ok (unquote value))
      (fun _ => Ok ddg_url)
  else Ok ddg_url.

(** The body of the loop's [try] for one block: [None] is the [continue] of a
    block that lacks its link or its snippet. *)
Definition block_entry (result_ : ResultDiv) : result (option SearchResult) :=
  match find_result__a result_, find_result__snippet result_ with
  | Some link, Some snippet =>
      let raw_url := default EmptyString (href link) in
      url ← _unwrap_ddg_redirect raw_url;
      parsed ← urlparse W url;
      Ok (Some (mkSearchResult (get_text link) url (get_text snippet) (netloc parsed)))
  | _, _ => Ok None
  end.

(** The [for] loop of [_parse_and_format_results] over the blocks that are
    left, with the results gathered so far. *)
Fixpoint collect_results (self : WebSearchTool) (blocks : list ResultDiv)
    (results : list SearchResult) : list SearchResult :=
  match blocks with
  | [] => results
  | result_ :: rest =>
      match block_entry result_ with
      | Ok (Some entry) =>
          let results := (results ++ [entry])%list in
          if (Z.of_nat (length results) >=? max_results self)%Z
          then results
          else collect_results self rest results
      | Ok None => collect_results self rest results
      | Raise _ => collect_results self rest results
      end
  end.

Definition format_entry (idx : nat) (r : SearchResult) : string :=
  str_of_nat idx ++ ". **[" ++ title r ++ "](" ++ url r ++ ")**" ++ nl
  ++ "*" ++ domain r ++ "*" ++ nl
  ++ snippet r ++ nl.

Definition _format_output (results : list SearchResult) : string :=
  match results with
  | [] => "No results found."
  | _ =>
      String.concat nl
        ("## Search Results" :: imap (fun i r => format_entry (S i) r) results)
  end.

Definition _parse_and_format_results (self : WebSearchTool) (html : string)
    : IO string :=
  blocks ← lift (soup_find_all_result W html);
  mret (_format_output (collect_results self blocks [])).

Definition search (self : WebSearchTool) (query : string) : IO string :=
  io_try
    (html ← _fetch_search_html self query;
     _parse_and_format_results self html)
    (fun e => mret ("Search error: " ++ exn_str e)).

(** ** [mytools.web_search] *)

(** [query, domain = query.split("site:", 1)] *)
Definition unpack2 (l : list string) : result (string * string) :=
  match l with
  | [a; b] => Ok (a, b)
  | _ => Raise (mkExn ValueError "wrong number of values to unpack")
  end.

Definition web_search (query : string) : IO string :=
  io_try
    (let web_search := WebSearchTool__init__ 5 in
     '(query, domain) ←
       (if contains "site:" query
        then '(q, d) ← lift (unpack2 (split1 "site:" query)); mret (q, Some d)
        else mret (query, None));
     search_result ← search web_search (strip query);
     match domain with
     | Some d =>
         if negb (String.length d =? 0)%nat
         then mret (search_result ++ nl ++ "Domain filter: " ++ strip d)
         else mret search_result
     | None => mret search_result
     end)
    (fun e => mret ("Web search failed: " ++ exn_str e)).

(** ** [mytools.web_page_text_extractor] *)

Definition web_page_text_extractor (url : string) : IO string :=
  let url_clean := lower W (strip url) in
  parsed ← lift (urlparse W url_clean);
  if negb (bool_decide (scheme parsed ∈ ["http"; "https"]))
     || (String.length (netloc parsed) =? 0)%nat
  then mret ("[Tool: WebBaseLoader ERROR] Invalid URL: " ++ url_clean)
  else
    io_try
      (documents ← perform (PageLoad url_clean) (loader_load W url_clean);
       match documents with
       | [] => mret ("[Tool: WebBaseLoader] No content found at " ++ url_clean)
       | _ =>
           let content := String.concat (nl ++ nl) documents in
           mret ("[Tool: WebBaseLoader]" ++ nl ++ content)
       end)
      (fun e =>
         mret ("[Tool: WebBaseLoader ERROR] Failed to extract content from "
               ++ url_clean ++ ": " ++ exn_str e)).

End Tools.

(** ** [myagent.my_agent]: the assistant/tools graph

    A [StateGraph] over [MessagesState] is the data [my_agent] builds: named
    nodes, edges and conditional edges. [invoke] runs it node by node from
    [START]; the update a node returns is appended to the messages, and an
    exception a node raises ends the run. The executor takes a step budget
    and stops with [OutOfSteps] when it is used up before [END] is reached.
    Every call of [llm.invoke] is logged. *)

Module Agent.
Local Open Scope list_scope.

(** A value among the arguments of a tool call, as the model's JSON gives
    it. *)
Inductive ArgValue :=
| IntArg (z : Z)
| FloatArg (f : spec_float)
| StrArg (s : string).

Record ToolCall := mkToolCall {
  tc_name : string;
  tc_args : list (string * ArgValue);
  tc_id : string
}.

Inductive Message :=
| SystemMessage (content : string)
| HumanMessage (content : string)
| AIMessage (content : string) (tool_calls : list ToolCall)
| ToolMessage (content : string) (name : string) (tool_call_id : string).

(** [state["messages"]] *)
Definition MessagesState := list Message.

(** The log of the message lists [llm.invoke] was called with. *)
Definition LlmLog := list (list Message).

Definition NodeFn : Type := MessagesState -> LlmLog -> result (list Message) * LlmLog.

Record StateGraph := mkStateGraph {
  nodes : list (string * NodeFn);
  edges : list (string * string);
  branches : list (string * (MessagesState -> string))
}.

Definition START : string := "__start__".
Definition END : string := "__end__".

Definition new_graph : StateGraph := mkStateGraph [] [] [].

Definition add_node (name : string) (f : NodeFn) (g : StateGraph) : StateGraph :=
  mkStateGraph (nodes g ++ [(name, f)]) (edges g) (branches g).

Definition add_edge (a b : string) (g : StateGraph) : StateGraph :=
  mkStateGraph (nodes g) (edges g ++ [(a, b)]) (branches g).

Definition add_conditional_edges (a : string) (c : MessagesState -> string)
    (g : StateGraph) : StateGraph :=
  mkStateGraph (nodes g) (edges g) (branches g ++ [(a, c)]).

Fixpoint assoc {V} (k : string) (l : list (string * V)) : option V :=
  match l with
  | [] => None
  | (k', v) :: rest => if String.eqb k k' then Some v else assoc k rest
  end.

(** [langgraph.prebuilt.tools_condition]: to the tools when the last message
    is an AI message that requests at least one tool, to [END] otherwise. (It
    is asked after the assistant node has appended its answer, so the state
    is not empty.) *)
Definition tools_condition (state : MessagesState) : string :=
  match last state with
  | Some (AIMessage _ (_ :: _)) => "tools"
  | _ => END
  end.

Section Graph.

(** The text of [system_prompt.txt], the chat model bound to the tools, and
    the execution of one tool call by the tool node: the text of what the
    tool returns, or the exception the tool raises. *)
Variable SYSTEM_PROMPT : string.
Variable llm_invoke : list Message -> result Message.
Variable run_tool : ToolCall -> result string.

Definition SYSTEM_MESSAGE : Message := SystemMessage SYSTEM_PROMPT.

Definition assistant_node : NodeFn := fun state log =>
  let history := state in
  let messages := SYSTEM_MESSAGE :: history in
  (response ← llm_invoke messages; Ok [response], log ++ [messages]).

(** The tool messages of the calls, in order; the first exception that a
    tool raises is raised. *)
Fixpoint run_calls (calls : list ToolCall) : result (list Message) :=
  match calls with
  | [] => Ok []
  | c :: rest =>
      content ← run_tool c;
      outputs ← run_calls rest;
      Ok (ToolMessage content (tc_name c) (tc_id c) :: outputs)
  end.

(** [ToolNode(TOOLS)]: one tool message for each call the last AI message
    requests. The node is built with its default error handling, which
    does not catch the exception of a tool: it ends the run. *)
Definition tool_node : NodeFn := fun state log =>
  match last state with
  | Some (AIMessage _ calls) => (run_calls calls, log)
  | _ => (Raise (mkExn ValueError "No AIMessage found in input"), log)
  end.

(** [my_agent]: [api_key] is the value of [OPENROUTER_API_KEY]. *)
Definition my_agent (api_key : option string) : result StateGraph :=
  match api_key with
  | None | Some EmptyString =>
      Raise (mkExn ValueError "OPENROUTER_API_KEY is not set. ")
  | Some _ =>
      let graph := new_graph in
      let graph := add_node "assistant" assistant_node graph in
      let graph := add_node "tools" tool_node graph in
      let graph := add_edge START "assistant" graph in
      let graph := add_conditional_edges "assistant" tools_condition graph in
      let graph := add_edge "tools" "assistant" graph in
      Ok graph
  end.

End Graph.

(** *** The tools

    [TOOLS] begins with [calculator]. The tool node runs the tool that a
    call names on the arguments of the call, and the content of the tool
    message is the text of the float returned. What the other tools answer,
    and what the node answers to a call whose arguments do not fit, is
    [other_tools]. *)




(** *** Running a graph *)

Inductive Outcome :=
| Finished (state : MessagesState)
| OutOfSteps (next : string) (state : MessagesState)
| Crashed (e : exn).

(** The node that follows [node]: by its conditional edge if it has one, by
    its edge otherwise. *)
Definition next_node (g : StateGraph) (node : string) (state : MessagesState)
    : string :=
  match assoc node (branches g) with
  | Some c => c state
  | None => default END (assoc node (edges g))
  end.

Fixpoint run (g : StateGraph) (budget : nat) (node : string)
    (state : MessagesState) (log : LlmLog) : Outcome * LlmLog :=
  if String.eqb node END then (Finished state, log)
  else
    match budget with
    | O => (OutOfSteps node state, log)
    | S budget' =>
        match assoc node (nodes g) with
        | None => (Crashed (mkExn KeyError node), log)
        | Some f =>
            match f state log with
            | (Ok update, log') =>
                let state' := state ++ update in
                run g budget' (next_node g node state') state' log'
            | (Raise e, log') => (Crashed e, log')
            end
        end
    end.

(** [graph.invoke({"messages": input})] within [budget] node executions. *)
Definition invoke (g : StateGraph) (budget : nat) (input : MessagesState)
    : Outcome * LlmLog :=
  run g budget (next_node g START input) input [].


End Agent.

(** ** Statements about the calculator *)

Definition supported_operations : list string :=
  ["add"; "sum"; "subtract"; "multiply"; "divide"; "div"; "modulus"; "mod"].


(** ** Statements about web search and page extraction *)

(** The one request a search makes. *)
Definition search_call (self : WebSearchTool) (q : string) : net_call :=
  HttpGet "https://html.duckduckgo.com/html" (session_headers self)
          [("q", q); ("kl", "wt-wt")] 10.

(** A world for examples: every request is answered with status 200, the
    page holds the given result blocks, and a loaded page has one document;
    its Unicode tables give no character above ASCII a lowercase form or an
    NFKC form of its own. *)
Definition result_block (link_href link_text snippet_text : string) : ResultDiv :=
  mkResultDiv (Some (mkTag (Some link_href) link_text))
              (Some (mkTag None snippet_text)).

Definition stub_world (blocks : list ResultDiv) : World :=
  mkWorld ascii_lower (fun s => s) (fun _ => Ok tt)
          (fun u _ _ _ => Ok (mkResponse 200 "OK" u "<html></html>"))
          (fun _ => Ok blocks)
          (fun _ => Ok ["page text"]).



(** A world whose network is down: every request raises. *)
Definition offline_world : World :=
  mkWorld ascii_lower (fun s => s) (fun _ => Ok tt)
          (fun _ _ _ _ => Raise (mkExn OtherException "connection refused"))
          (fun _ => Ok [])
          (fun _ => Raise (mkExn OtherException "connection refused")).

(** The query that [web_search] searches: the text before the first
    [site:], stripped. *)
Definition base_query (query : string) : string :=
  strip (match partition "site:" query with
         | Some (base, _) => base
         | None => query
         end).

(** What [web_search] appends to the report: the line of the domain filter
    when the text after the first [site:] is not empty. *)
Definition domain_annotation (query : string) : string :=
  match partition "site:" query with
  | Some (_, dom) =>
      if (String.length dom =? 0)%nat then EmptyString
      else nl ++ "Domain filter: " ++ strip dom
  | None => EmptyString
  end.

(** The entries of the blocks that have a link and a snippet and whose URL
    parses, in document order. *)
Definition block_entries (W : World) (blocks : list ResultDiv) : list SearchResult :=
  omap (fun b => match block_entry W b with
                 | Ok (Some entry) => Some entry
                 | _ => None
                 end) blocks.

(** The claim on the collected results, as stated: at most [max] of them, no
    two with the same url. *)
Definition search_results_invariant (max : Z) (results : list SearchResult) : Prop :=
  (Z.of_nat (length results) <= max)%Z /\ NoDup (map url results).

(** ** Statements about the agent graph *)

Module AgentClaims.
Import Agent.


Definition stub_llm : list Message -> result Message :=
  fun _ => Ok (AIMessage ""
                 [mkToolCall "calculator"
                    [("a", IntArg 2); ("b", IntArg 2); ("operation", StrArg "add")]
                    "call_1"]).

Definition stub_graph : StateGraph :=
  match my_agent "You are a helpful assistant." stub_llm (fun _ => Ok "4.0")
          (Some "key") with
  | Ok graph => graph
  | Raise _ => new_graph
  end.


(** The graph [my_agent] returns when the key is set. *)
Definition agent_graph (SYSTEM_PROMPT : string)
    (llm_invoke : list Message -> result Message)
    (run_tool : ToolCall -> result string) : StateGraph :=
  add_edge "tools" "assistant"
    (add_conditional_edges "assistant" tools_condition
       (add_edge START "assistant"
          (add_node "tools" (tool_node run_tool)
             (add_node "assistant" (assistant_node SYSTEM_PROMPT llm_invoke)
                new_graph)))).


(** The model invocations within [budget] steps from [node]. *)
Definition invocations (node : string) (budget : nat) : nat :=
  if String.eqb node "assistant" then Nat.div2 (S budget) else Nat.div2 budget.

End AgentClaims.

(** ** Statements about the cleaning of a URL *)

(** Three facts on [str.lower] that hold of the Unicode tables: a
    lower-cased text has no capital ASCII letter, lower-casing it again
    changes nothing, and lower-casing neither makes nor removes a blank at
    the ends of a text. *)
Definition lowercase_facts (W : World) : Prop :=
  (forall s, str_existsb isupper (lower W s) = false)
  /\ (forall s, lower W (lower W s) = lower W s)
  /\ (forall s, strip (lower W s) = lower W (strip s)).

(** The characters that [strip] drops are non-empty texts without letters,
    read forwards or backwards. *)
Definition plain_chars (chars : list string) : Prop :=
  Forall (fun w => w <> "" /\ str_forallb (fun c => negb (isalpha c)) w = true)
         chars.

(** ** Statements about URL validation *)

(** A character of a plain host: an ASCII character that is none of the
    delimiters [/], [?], [#], no bracket, and none of the characters
    [urlsplit] removes. *)
Definition plain_host_char (c : ascii) : bool :=
  isascii_char c
  && negb (has_char c "/?#[]") && negb (_UNSAFE_URL_BYTES_TO_REMOVE c).

(** What may follow the host: nothing, or a path, a query or a fragment. *)
Definition after_host (rest : string) : bool :=
  match rest with
  | EmptyString => true
  | String c _ => has_char c "/?#"
  end.

(** ** Tactics *)

(** Unfolds the operations of [IO], leaving the matches on what the world
    answers. *)
Ltac unfold_io :=
  unfold mbind, IO_bind, lift, io_try, perform, mret, IO_ret.

(** Decides a property of one character by running through all of them. *)
Ltac by_cases_on_char c :=
  destruct c as [[] [] [] [] [] [] [] []]; cbv; intuition congruence.

(** ** [mytools.wolfram_query] *)

Module Wolfram.

(** A pod of the result: [pod.text], when the pod has the attribute and it
    is not [None]. *)
Record Pod := mkPod { pod_text : option string }.

(** What [wolframalpha.Client(app_id).query(expression)] and the reading of
    [res.results] come to: the primary pods of the result, or an exception. *)
Inductive Answer :=
| Pods (results : list Pod)
| RaisesStopIteration
| Raises (e : exn).

(** An attempt to query the API: the application id and the expression. *)
Definition ApiCall : Type := string * string.

Section Query.

(** [os.getenv] and the client. *)
Variable getenv : string -> option string.
Variable client_query : string -> string -> Answer.

Definition wolfram_query (expression : string) : string * list ApiCall :=
  match getenv "WOLFRAM_APP_ID" with
  | None | Some EmptyString =>
      ("[Tool: wolfram_query ERROR] Missing WOLFRAM_APP_ID environment variable.", [])
  | Some app_id =>
      (match client_query app_id expression with
       | Pods results =>
           (* [pod = next(res.results, None)] *)
           match head results with
           | Some (mkPod (Some (String c t))) =>
               "[Tool: wolfram_query] " ++ String c t
           | _ => "[Tool: wolfram_query] No result for query: '" ++ expression ++ "'."
           end
       | RaisesStopIteration =>
           "[Tool: wolfram_query] No results returned for '" ++ expression ++ "'."
       | Raises e => "[Tool: wolfram_query ERROR] " ++ exn_str e
       end, [(app_id, expression)])
  end.

End Query.

End Wolfram.

(** ** [mytools.wiki_search] *)

Module Wiki.

(** A loaded document: [doc.metadata] and [doc.page_content]. *)
Record Document := mkDocument {
  metadata : gmap string string;
  page_content : string
}.

(** A list comprehension whose element expression may raise: the elements
    are computed in order, and the first exception ends it. *)
Fixpoint comprehension {A B} (f : A -> result B) (l : list A) : result (list B) :=
  match l with
  | [] => Ok []
  | x :: rest =>
      y ← f x;
      ys ← comprehension f rest;
      Ok (y :: ys)
  end.

Section Search.

(** [WikipediaLoader(query=..., load_max_docs=...).load()] *)
Variable WikipediaLoader_load : string -> Z -> result (list Document).

Definition wiki_search (query : string) : result string :=
  docs ← WikipediaLoader_load query 2;
  parts ← comprehension
             (fun doc =>
                source ← getitem (metadata doc) "source";
                Ok ("Source: " ++ source ++ nl ++ page_content doc))
             docs;
  Ok (String.concat (nl ++ nl) parts).

End Search.

End Wiki.

(** ** Statements about texts *)

(** [x] occurs in [s]. *)
Definition occurs (x s : string) : Prop := exists a b, s = a ++ x ++ b.

(** ** Statements about the outcome of a page extraction *)

Inductive ExtractionCase := InvalidUrl | LoadFailed | NoContent | Extracted.

(** The outcome a caller reads off the label the returned text begins with. *)
Definition extraction_case (text : string) : option ExtractionCase :=
  if startswith text "[Tool: WebBaseLoader ERROR] Invalid URL: "
  then Some InvalidUrl
  else if startswith text "[Tool: WebBaseLoader ERROR] Failed to extract content from "
  then Some LoadFailed
  else if startswith text "[Tool: WebBaseLoader] No content found at "
  then Some NoContent
  else if startswith text ("[Tool: WebBaseLoader]" ++ nl)
  then Some Extracted
  else None.

(** The validity test of the extractor on a parsed URL. *)
Definition valid_page_url (parsed : ParseResult) : bool :=
  bool_decide (scheme parsed ∈ ["http"; "https"])
  && negb (String.length (netloc parsed) =? 0)%nat.

(** ** Statements about the runs of the agent graph *)

Module AgentRuns.
Import Agent.

(** A model call made on behalf of a run on [input]: the system message
    first, then messages that begin with [input]. *)
Definition model_call_of (SYSTEM_PROMPT : string) (input : MessagesState)
    (call : list Message) : Prop :=
  exists history,
    call = SYSTEM_MESSAGE SYSTEM_PROMPT :: history /\ input `prefix_of` history.

(** The messages a run ends with, unless it crashed. *)
Definition final_state (o : Outcome) : option MessagesState :=
  match o with
  | Finished state | OutOfSteps _ state => Some state
  | Crashed _ => None
  end.

(** What holds of a run from [node], [state] and [log] onwards. *)
Definition run_ok (SYSTEM_PROMPT : string) (input : MessagesState)
    (node : string) (budget : nat) (log : LlmLog)
    (result : Outcome * LlmLog) : Prop :=
  Forall (model_call_of SYSTEM_PROMPT input) (snd result)
  /\ (length (snd result) <= length log + AgentClaims.invocations node budget)%nat
  /\ (forall state, final_state (fst result) = Some state -> input `prefix_of` state)
  /\ (forall state, fst result = Finished state -> tools_condition state = END).

End AgentRuns.

(** ** Statements about the calculator in the loop *)

Module CalculatorInLoop.
Import Agent.




End CalculatorInLoop.

(** ** Statements about the exceptions of the calculator *)

(** What makes the calculator raise an exception of class [c]. *)
Definition exception_cause (a b : number) (operation : string)
    (c : exn_class) : Prop :=
  match c with
  | ValueError =>
      operation ∉ supported_operations
      \/ (operation ∈ ["divide"; "div"] /\ py_eq b (PyInt 0) = true)
  | ZeroDivisionError =>
      operation ∈ ["modulus"; "mod"] /\ py_eq b (PyInt 0) = true
  | OverflowError =>
      operation ∈ supported_operations
      /\ ((exists z, a = PyInt z) \/ (exists z, b = PyInt z))
  | _ => False
  end.

Ltac in_list :=
  unfold supported_operations;
  repeat first [apply list_elem_of_here | apply list_elem_of_further].

(** * Properties *)

(** ** Conversion of small ints to binary64 *)

Section IntToFloat.
Local Open Scope Z_scope.

Lemma digits2_pos_bounds (m : positive) :
  2 ^ (Z.pos (digits2_pos m) - 1) <= Z.pos m < 2 ^ Z.pos (digits2_pos m).
Proof.
  induction m as [m IH|m IH|]; simpl digits2_pos.
  - rewrite Pos2Z.inj_succ, (Pos2Z.inj_xI m).
    replace (Z.succ (Z.pos (digits2_pos m)) - 1)
      with (Z.succ (Z.pos (digits2_pos m) - 1)) by lia.
    rewrite !Z.pow_succ_r by lia.
    revert IH.
    generalize (2 ^ (Z.pos (digits2_pos m) - 1)), (2 ^ Z.pos (digits2_pos m)).
    intros; lia.
  - rewrite Pos2Z.inj_succ, (Pos2Z.inj_xO m).
    replace (Z.succ (Z.pos (digits2_pos m)) - 1)
      with (Z.succ (Z.pos (digits2_pos m) - 1)) by lia.
    rewrite !Z.pow_succ_r by lia.
    revert IH.
    generalize (2 ^ (Z.pos (digits2_pos m) - 1)), (2 ^ Z.pos (digits2_pos m)).
    intros; lia.
  - simpl. lia.
Qed.








End IntToFloat.

(** ** Rounding keeps a mantissa that is not zero *)

Section RoundingKeepsNonzero.
Local Open Scope Z_scope.

Lemma shr_1_halves (mrs : shr_record) :
  0 <= shr_m mrs -> shr_m (shr_1 mrs) = shr_m mrs / 2.
Proof.
  destruct mrs as [m r s]. cbn [shr_m]. intros Hm.
  rewrite <- Z.div2_div.
  destruct m as [|[p|p|]|p]; try reflexivity. lia.
Qed.

Lemma iter_pos_shr_1 (p : positive) :
  forall mrs, 0 <= shr_m mrs ->
    shr_m (SpecFloat.iter_pos shr_1 p mrs) = shr_m mrs / 2 ^ Z.pos p.
Proof.
  induction p as [p IH|p IH|]; intros mrs Hm; cbn [SpecFloat.iter_pos].
  - assert (H1 : 0 <= shr_m (shr_1 mrs))
      by (rewrite shr_1_halves by assumption; apply Z.div_pos; lia).
    assert (H2 : 0 <= shr_m (SpecFloat.iter_pos shr_1 p (shr_1 mrs)))
      by (rewrite IH by assumption; apply Z.div_pos; lia).
    rewrite IH, IH, shr_1_halves by assumption.
    rewrite !Z.div_div by lia.
    f_equal. rewrite (Pos2Z.inj_xI p).
    replace (2 * Z.pos p + 1) with (1 + Z.pos p + Z.pos p) by lia.
    rewrite !Z.pow_add_r, Z.pow_1_r by lia. lia.
  - assert (H2 : 0 <= shr_m (SpecFloat.iter_pos shr_1 p mrs))
      by (rewrite IH by assumption; apply Z.div_pos; lia).
    rewrite IH, IH by assumption.
    rewrite !Z.div_div by lia.
    f_equal. rewrite (Pos2Z.inj_xO p).
    replace (2 * Z.pos p) with (Z.pos p + Z.pos p) by lia.
    rewrite !Z.pow_add_r by lia. lia.
  - rewrite shr_1_halves by assumption. reflexivity.
Qed.

Lemma shr_record_of_loc_m (m : Z) (l : location) :
  shr_m (shr_record_of_loc m l) = m.
Proof. destruct l as [|[]]; reflexivity. Qed.

(** Above the smallest exponent a shift keeps a positive mantissa positive. *)
Lemma shr_fexp_positive (q : positive) (e : Z) (l : location) :
  emin prec emax <= e ->
  0 < shr_m (fst (shr_fexp prec emax (Z.pos q) e l))
  /\ e <= snd (shr_fexp prec emax (Z.pos q) e l).
Proof.
  intros He. unfold shr_fexp, shr. cbn [Zdigits2].
  destruct (digits2_pos_bounds q) as [Hlo _].
  destruct (fexp prec emax (Z.pos (digits2_pos q) + e) - e) as [|p|p] eqn:En;
    cbn [fst snd]; rewrite ?shr_record_of_loc_m; try lia.
  rewrite iter_pos_shr_1 by (rewrite shr_record_of_loc_m; lia).
  rewrite shr_record_of_loc_m. split; [|lia].
  apply Z.div_str_pos. split; [lia|].
  etrans; [|exact Hlo].
  apply Z.pow_le_mono_r; [lia|].
  unfold fexp, emin, prec, emax in *. lia.
Qed.

Lemma round_nearest_even_positive (m : Z) (l : location) :
  0 < m -> 0 < round_nearest_even m l.
Proof.
  intros Hm. destruct l as [|[]]; cbn [round_nearest_even];
    try destruct (Z.even m); lia.
Qed.

Lemma binary_round_aux_nonzero (s s' : bool) (q : positive) (e : Z) (l : location) :
  emin prec emax <= e ->
  binary_round_aux prec emax s (Z.pos q) e l <> S754_zero s'.
Proof.
  intros He. unfold binary_round_aux.
  destruct (shr_fexp_positive q e l He) as [Hm1 He1].
  destruct (shr_fexp prec emax (Z.pos q) e l) as [mrs1 e1]. cbn [fst snd] in *.
  pose proof (round_nearest_even_positive (shr_m mrs1) (loc_of_shr_record mrs1) Hm1)
    as Hm2.
  destruct (round_nearest_even (shr_m mrs1) (loc_of_shr_record mrs1))
    as [|q2|q2]; try lia.
  destruct (shr_fexp_positive q2 e1 loc_Exact ltac:(lia)) as [Hm3 _].
  destruct (shr_fexp prec emax (Z.pos q2) e1 loc_Exact) as [mrs3 e3].
  cbn [fst snd] in *.
  destruct (shr_m mrs3) as [|q3|q3]; try lia.
  destruct (e3 <=? emax - prec); discriminate.
Qed.

Lemma binary_normalize_nonzero (z : Z) (s : bool) :
  z <> 0 -> binary_normalize prec emax z 0 false <> S754_zero s.
Proof.
  intros Hz. destruct z as [|m|m]; [contradiction| |];
    unfold binary_normalize, binary_round, shl_align;
    destruct (fexp prec emax (Z.pos (digits2_pos m) + 0) - 0) as [|p|p] eqn:Ef;
    apply binary_round_aux_nonzero;
    unfold fexp, emin, prec, emax in *; lia.
Qed.

(** [float(z)] is zero only for [z = 0]. *)
Lemma int_to_float_nonzero (z : Z) (f : spec_float) :
  int_to_float z = Ok f -> SFeqb f float_zero = true -> z = 0.
Proof.
  intros Hf Hzero.
  destruct (Z.eq_dec z 0) as [|Hz]; [assumption|exfalso].
  assert (exists s, f = S754_zero s) as [s ->].
  { destruct f as [s|[]| |[] m e]; try discriminate Hzero. eauto. }
  unfold int_to_float in Hf.
  pose proof (binary_normalize_nonzero z s Hz) as Hn.
  destruct (binary_normalize prec emax z 0 false); congruence.
Qed.

End RoundingKeepsNonzero.

(** ** Rounding where nothing is lost *)

Section ExactRounding.
Local Open Scope Z_scope.











End ExactRounding.

(** ** Division of ints *)

Section IntDivision.
Local Open Scope Z_scope.












End IntDivision.

(** ** The remainder of floats that are ints *)

Section FloatModulus.
Local Open Scope Z_scope.










End FloatModulus.

(** ** Quotients that are ints *)

Section ExactQuotient.
Local Open Scope Z_scope.




End ExactQuotient.



(** ** The calculator *)



Lemma append_assoc (s1 s2 s3 : string) : (s1 ++ s2) ++ s3 = s1 ++ (s2 ++ s3).
Proof.
  induction s1 as [|c s1 IH]; [reflexivity|].
  change (String c ((s1 ++ s2) ++ s3) = String c (s1 ++ (s2 ++ s3))).
  now rewrite IH.
Qed.

(** C9. The zero check guards [divide]/[div] only: for every [a],
    [calculator(a, 0, "modulus")] and its alias [mod] reach Python's [%] with
    a zero divisor and raise [ZeroDivisionError], for an int [a] and for a
    float [a] alike (and so does a float zero divisor under a float [a]),
    while [divide] by the same zero raises the guard's [ValueError]. *)
Theorem modulus_by_zero_unguarded (a : number) :
  raises ZeroDivisionError (calculator a (PyInt 0) "modulus")
  /\ raises ZeroDivisionError (calculator a (PyInt 0) "mod")
  /\ (forall (x : spec_float) (s : bool),
        raises ZeroDivisionError
          (calculator (PyFloat x) (PyFloat (S754_zero s)) "modulus")
        /\ raises ZeroDivisionError
             (calculator (PyFloat x) (PyFloat (S754_zero s)) "mod"))
  /\ calculator a (PyInt 0) "divide"
     = Raise (mkExn ValueError "Cannot divide by zero.")
  /\ calculator a (PyInt 0) "div"
     = Raise (mkExn ValueError "Cannot divide by zero.").
Proof.
  repeat split.
  - destruct a as [z|f]; eexists; reflexivity.
  - destruct a as [z|f]; eexists; reflexivity.
  - eexists; reflexivity.
  - eexists; reflexivity.
Qed.










(** ** String methods *)

Lemma prefix_split (p s : string) :
  String.prefix p s = true -> s = p ++ str_drop (String.length p) s.
Proof.
  revert s. induction p as [|c p IH]; intros s Hp; [reflexivity|].
  destruct s as [|x s]; [discriminate Hp|].
  simpl in Hp. destruct (ascii_dec c x) as [->|]; [|discriminate Hp].
  change (String x s = String x (p ++ str_drop (String.length p) s)).
  f_equal. apply IH, Hp.
Qed.

Lemma prefix_app (p s : string) : String.prefix p (p ++ s) = true.
Proof.
  induction p as [|c p IH]; [destruct s; reflexivity|].
  change (String.prefix (String c p) (String c (p ++ s)) = true).
  simpl. destruct (ascii_dec c c); [exact IH|contradiction].
Qed.

(** [partition] cuts at the first occurrence of the separator. *)
Lemma partition_spec (sep s a b : string) :
  partition sep s = Some (a, b) ->
  s = a ++ sep ++ b
  /\ forall a' b', s = a' ++ sep ++ b' -> (String.length a <= String.length a')%nat.
Proof.
  revert a b. induction s as [|x t IH]; intros a b; cbn [partition].
  - destruct (String.prefix sep "") eqn:Hp; [|discriminate].
    intros Heq.
    assert (a = "" /\ b = str_drop (String.length sep) "") as [-> ->]
      by (inversion Heq; auto).
    split; [apply (prefix_split _ _ Hp)|]. intros; simpl; lia.
  - destruct (String.prefix sep (String x t)) eqn:Hp.
    + intros Heq.
      assert (a = "" /\ b = str_drop (String.length sep) (String x t)) as [-> ->]
        by (inversion Heq; auto).
      split; [apply (prefix_split _ _ Hp)|]. intros; simpl; lia.
    + destruct (partition sep t) as [[a0 b0]|] eqn:Ht; [|discriminate].
      intros Heq.
      assert (a = String x a0 /\ b = b0) as [-> ->] by (inversion Heq; auto).
      destruct (IH _ _ eq_refl) as [Hs Hmin].
      split; [rewrite Hs at 1; reflexivity|].
      intros [|y a''] b' Heq'.
      * change (String x t = sep ++ b') in Heq'.
        rewrite Heq', prefix_app in Hp. discriminate Hp.
      * change (String x t = String y (a'' ++ sep ++ b')) in Heq'.
        injection Heq' as _ Heq'. simpl. apply le_n_S, (Hmin _ _ Heq').
Qed.

Lemma partition_prefix (sep s : string) :
  String.prefix sep s = true ->
  partition sep s = Some ("", str_drop (String.length sep) s).
Proof. intros Hp. destruct s; cbn [partition]; rewrite Hp; reflexivity. Qed.

(** [contains sep s] says that [sep] occurs in [s]. *)
Lemma contains_spec (sep s : string) :
  contains sep s = true <-> exists a b, s = a ++ sep ++ b.
Proof.
  unfold contains. split.
  - destruct (partition sep s) as [[a b]|] eqn:Hp; [|discriminate].
    intros _. exists a, b. apply (partition_spec _ _ _ _ Hp).
  - intros (a & b & ->). induction a as [|x a IH].
    + change ("" ++ sep ++ b) with (sep ++ b).
      rewrite partition_prefix by apply prefix_app. reflexivity.
    + change (String x a ++ sep ++ b) with (String x (a ++ sep ++ b)).
      cbn [partition]. destruct (String.prefix sep _); [reflexivity|].
      destruct (partition sep (a ++ sep ++ b)) as [[a0 b0]|]; [reflexivity|].
      discriminate IH.
Qed.

Lemma lower_char_not_upper (c : ascii) : isupper (lower_char c) = false.
Proof. by_cases_on_char c. Qed.

Lemma lower_has_no_upper (s : string) :
  str_existsb isupper (ascii_lower s) = false.
Proof.
  unfold str_existsb. induction s as [|c s IH]; [reflexivity|].
  simpl. rewrite lower_char_not_upper. simpl.
  destruct (str_forallb _ (ascii_lower s)); [reflexivity|discriminate IH].
Qed.

Lemma lower_char_idempotent (c : ascii) : lower_char (lower_char c) = lower_char c.
Proof. destruct c as [[] [] [] [] [] [] [] []]; reflexivity. Qed.

Lemma lower_idempotent (s : string) : ascii_lower (ascii_lower s) = ascii_lower s.
Proof.
  induction s as [|c s IH]; [reflexivity|].
  cbn [ascii_lower]. now rewrite lower_char_idempotent, IH.
Qed.

Lemma lower_ascii (W : World) (s : string) :
  isascii s = true -> lower W s = ascii_lower s.
Proof. unfold lower. now intros ->. Qed.

(** ** Stripping and lower-casing *)

Lemma string_app_cons (c : ascii) (s t : string) :
  String c s ++ t = String c (s ++ t).
Proof. reflexivity. Qed.

Lemma append_nil_r (s : string) : s ++ "" = s.
Proof.
  induction s as [|c s IH]; [reflexivity|].
  rewrite string_app_cons. now rewrite IH.
Qed.

Lemma str_forallb_impl (p q : ascii -> bool) (s : string) :
  (forall c, p c = true -> q c = true) ->
  str_forallb p s = true -> str_forallb q s = true.
Proof.
  intros Hpq. induction s as [|c s IH]; [reflexivity|]. cbn [str_forallb].
  intros [Hc Hs]%andb_true_iff. now rewrite (Hpq c Hc), IH.
Qed.

Lemma rev_app_acc (s acc t : string) :
  String.rev_app s (acc ++ t) = String.rev_app s acc ++ t.
Proof.
  revert acc. induction s as [|c s IH]; intros acc; [reflexivity|].
  cbn [String.rev_app]. rewrite <- IH. reflexivity.
Qed.

Lemma rev_cons (c : ascii) (s : string) :
  String.rev (String c s) = String.rev s ++ String c "".
Proof.
  unfold String.rev. cbn [String.rev_app].
  rewrite <- rev_app_acc. reflexivity.
Qed.

Lemma rev_app_distr (a b : string) :
  String.rev (a ++ b) = String.rev b ++ String.rev a.
Proof.
  induction a as [|c a IH].
  - change ("" ++ b) with b. change (String.rev "") with "".
    now rewrite append_nil_r.
  - rewrite string_app_cons, !rev_cons, IH, append_assoc. reflexivity.
Qed.

Lemma rev_involutive (s : string) : String.rev (String.rev s) = s.
Proof.
  induction s as [|c s IH]; [reflexivity|].
  rewrite rev_cons, rev_app_distr, IH. reflexivity.
Qed.

Lemma str_forallb_rev_app (p : ascii -> bool) (s acc : string) :
  str_forallb p (String.rev_app s acc) = str_forallb p s && str_forallb p acc.
Proof.
  revert acc. induction s as [|c s IH]; intros acc; [reflexivity|].
  cbn [String.rev_app str_forallb]. rewrite IH. cbn [str_forallb].
  destruct (p c), (str_forallb p s), (str_forallb p acc); reflexivity.
Qed.

Lemma isascii_lower (s : string) : isascii (ascii_lower s) = isascii s.
Proof.
  unfold isascii. induction s as [|c s IH]; [reflexivity|].
  cbn [ascii_lower str_forallb]. rewrite IH. f_equal.
  destruct c as [[] [] [] [] [] [] [] []]; reflexivity.
Qed.

Lemma lower_rev_app (s acc : string) :
  ascii_lower (String.rev_app s acc)
  = String.rev_app (ascii_lower s) (ascii_lower acc).
Proof.
  revert acc. induction s as [|c s IH]; intros acc; [reflexivity|].
  cbn [String.rev_app ascii_lower]. now rewrite IH.
Qed.

Lemma str_forallb_app (p : ascii -> bool) (a b : string) :
  str_forallb p (a ++ b) = str_forallb p a && str_forallb p b.
Proof.
  induction a as [|c a IH]; [reflexivity|].
  rewrite string_app_cons. cbn [str_forallb]. rewrite IH. apply andb_assoc.
Qed.

Lemma has_prefix_app (w s t : string) :
  has_prefix w s = true -> has_prefix w (s ++ t) = true.
Proof.
  revert s. induction w as [|a w IH]; intros s; [reflexivity|].
  destruct s as [|b s]; [discriminate|]. rewrite string_app_cons.
  cbn [has_prefix]. intros [-> Hw]%andb_true_iff. now rewrite IH.
Qed.

Lemma lower_char_isalpha (c : ascii) : isalpha (lower_char c) = isalpha c.
Proof. destruct c as [[] [] [] [] [] [] [] []]; reflexivity. Qed.

Lemma lower_char_not_alpha (c : ascii) : isalpha c = false -> lower_char c = c.
Proof. by_cases_on_char c. Qed.

(** A test against a character that is no letter is not changed by
    lower-casing. *)
Lemma eqb_lower_char (a b : ascii) :
  isalpha a = false -> Ascii.eqb a (lower_char b) = Ascii.eqb a b.
Proof.
  intros Ha.
  destruct (Ascii.eqb_spec a (lower_char b)) as [E|NE],
           (Ascii.eqb_spec a b) as [E'|NE']; try reflexivity; exfalso.
  - apply NE'. rewrite E. apply lower_char_not_alpha.
    rewrite <- lower_char_isalpha, <- E. exact Ha.
  - apply NE. rewrite <- E'. symmetry. apply lower_char_not_alpha, Ha.
Qed.

Lemma has_prefix_lower (w s : string) :
  str_forallb (fun c => negb (isalpha c)) w = true ->
  has_prefix w (ascii_lower s) = has_prefix w s.
Proof.
  revert s. induction w as [|a w IH]; intros s; [reflexivity|].
  cbn [str_forallb]. intros [Ha Hw]%andb_true_iff.
  destruct s as [|b s]; [reflexivity|]. cbn [ascii_lower has_prefix].
  rewrite eqb_lower_char, IH by (assumption || now destruct (isalpha a)).
  reflexivity.
Qed.

Lemma first_prefix_None (chars : list string) (s : string) :
  first_prefix chars s = None <-> Forall (fun w => has_prefix w s = false) chars.
Proof.
  induction chars as [|w ws IH]; cbn [first_prefix].
  - split; [constructor|reflexivity].
  - destruct (has_prefix w s) eqn:Hw.
    + split; [discriminate|]. intros H. inversion H; congruence.
    + rewrite IH. split; [now constructor|]. intros H. now inversion H.
Qed.

Lemma first_prefix_Some (chars : list string) (s : string) (n : nat) :
  plain_chars chars -> first_prefix chars s = Some n -> exists k, n = S k.
Proof.
  intros Hplain. induction Hplain as [|w ws [Hw _] _ IH]; cbn [first_prefix];
    [discriminate|].
  destruct (has_prefix w s); [|exact IH].
  intros [= <-]. destruct w; [contradiction|]. cbn. eauto.
Qed.

Lemma first_prefix_empty (chars : list string) :
  plain_chars chars -> first_prefix chars "" = None.
Proof.
  intros Hplain. induction Hplain as [|w ws [Hw _] _ IH]; [reflexivity|].
  cbn [first_prefix]. destruct w; [contradiction|exact IH].
Qed.

(** What is left after stripping begins with none of the characters. *)
Lemma lstrip_chars_stops (chars : list string) (s : string) :
  plain_chars chars ->
  forall skip, first_prefix chars (lstrip_chars chars skip s) = None.
Proof.
  intros Hplain.
  induction s as [|c s IH]; intros skip; [now apply first_prefix_empty|].
  cbn [lstrip_chars]. destruct skip as [|k]; [|apply IH].
  destruct (first_prefix chars (String c s)) as [[|k]|] eqn:Hp;
    [|apply IH|exact Hp].
  destruct (first_prefix_Some _ _ _ Hplain Hp) as [k Hk]. discriminate Hk.
Qed.

Lemma lstrip_chars_fix (chars : list string) (s : string) :
  first_prefix chars s = None -> lstrip_chars chars 0 s = s.
Proof. destruct s as [|c s]; [reflexivity|]. cbn [lstrip_chars]. now intros ->. Qed.

Lemma lstrip_chars_idempotent (chars : list string) (s : string) :
  plain_chars chars ->
  lstrip_chars chars 0 (lstrip_chars chars 0 s) = lstrip_chars chars 0 s.
Proof. intros Hplain. now apply lstrip_chars_fix, lstrip_chars_stops. Qed.

Lemma lstrip_chars_suffix (chars : list string) (s : string) :
  forall skip, exists p, s = p ++ lstrip_chars chars skip s.
Proof.
  induction s as [|c s IH]; intros skip; [now exists ""|].
  cbn [lstrip_chars].
  assert (Hdrop : forall k, exists p, String c s = p ++ lstrip_chars chars k s).
  { intros k. destruct (IH k) as [p Hp]. exists (String c p).
    rewrite string_app_cons. now rewrite <- Hp. }
  destruct skip as [|k]; [|apply Hdrop].
  destruct (first_prefix chars (String c s)) as [[|k]|];
    [now exists ""|apply Hdrop|now exists ""].
Qed.

Lemma first_prefix_app_None (chars : list string) (s t : string) :
  first_prefix chars (s ++ t) = None -> first_prefix chars s = None.
Proof.
  rewrite !first_prefix_None. intros H. eapply Forall_impl; [exact H|].
  cbn beta. intros w Hw. destruct (has_prefix w s) eqn:Hs; [|reflexivity].
  now rewrite (has_prefix_app w s t Hs) in Hw.
Qed.

Lemma first_prefix_lower (chars : list string) (s : string) :
  plain_chars chars ->
  first_prefix chars (ascii_lower s) = first_prefix chars s.
Proof.
  intros Hplain. induction Hplain as [|w ws [_ Hw] _ IH]; [reflexivity|].
  cbn [first_prefix]. now rewrite (has_prefix_lower w s Hw), IH.
Qed.

Lemma lstrip_chars_lower (chars : list string) (s : string) :
  plain_chars chars ->
  forall skip,
    lstrip_chars chars skip (ascii_lower s)
    = ascii_lower (lstrip_chars chars skip s).
Proof.
  intros Hplain. induction s as [|c s IH]; intros skip; [reflexivity|].
  change (ascii_lower (String c s)) with (String (lower_char c) (ascii_lower s)).
  cbn [lstrip_chars]. destruct skip as [|k]; [|apply IH].
  change (String (lower_char c) (ascii_lower s)) with (ascii_lower (String c s)).
  rewrite (first_prefix_lower _ _ Hplain).
  destruct (first_prefix chars (String c s)) as [[|k]|]; [reflexivity|apply IH|reflexivity].
Qed.

Lemma whitespace_plain :
  plain_chars whitespace /\ plain_chars (map String.rev whitespace).
Proof. split; repeat constructor; discriminate. Qed.

(** What [strip] returns is a part of the text. *)
Lemma strip_part (s : string) : exists p q, s = p ++ strip s ++ q.
Proof.
  unfold strip, rstrip, lstrip.
  destruct (lstrip_chars_suffix whitespace s 0) as [p Hp].
  set (t := lstrip_chars whitespace 0 s) in *.
  destruct (lstrip_chars_suffix (map String.rev whitespace) (String.rev t) 0)
    as [q Hq].
  exists p, (String.rev q). rewrite <- rev_app_distr, <- Hq, rev_involutive.
  exact Hp.
Qed.

Lemma isascii_strip (s : string) : isascii s = true -> isascii (strip s) = true.
Proof.
  destruct (strip_part s) as (p & q & Hs). unfold isascii.
  rewrite Hs at 1. rewrite !str_forallb_app.
  intros [_ [H _]%andb_true_iff]%andb_true_iff. exact H.
Qed.

(** Stripping a second time changes nothing, whatever the text. *)
Lemma strip_idempotent (s : string) : strip (strip s) = strip s.
Proof.
  destruct whitespace_plain as [Hws Hrev].
  unfold strip, rstrip, lstrip.
  set (t := lstrip_chars whitespace 0 s).
  set (r := lstrip_chars (map String.rev whitespace) 0 (String.rev t)).
  assert (Ht : first_prefix whitespace t = None)
    by apply (lstrip_chars_stops whitespace _ Hws).
  destruct (lstrip_chars_suffix (map String.rev whitespace) (String.rev t) 0)
    as [p Hp]. fold r in Hp.
  assert (Hr : first_prefix whitespace (String.rev r) = None).
  { apply (first_prefix_app_None whitespace _ (String.rev p)).
    rewrite <- rev_app_distr, <- Hp, rev_involutive. exact Ht. }
  rewrite (lstrip_chars_fix whitespace _ Hr), rev_involutive.
  unfold r. now rewrite (lstrip_chars_idempotent _ _ Hrev).
Qed.

(** Stripping and the lower-casing of the ASCII letters can be done in
    either order, whatever the text. *)
Lemma strip_lower (s : string) : strip (ascii_lower s) = ascii_lower (strip s).
Proof.
  destruct whitespace_plain as [Hws Hrev].
  unfold strip, rstrip, lstrip, String.rev.
  rewrite (lstrip_chars_lower _ _ Hws), lower_rev_app.
  change (ascii_lower "") with "".
  rewrite <- (lstrip_chars_lower _ _ Hrev), lower_rev_app. reflexivity.
Qed.

(** The cleaned form of an ASCII text, and what cleaning it again gives. *)
Lemma clean_ascii (W : World) (s : string) :
  isascii s = true ->
  lower W (strip s) = ascii_lower (strip s)
  /\ lower W (strip (lower W (strip s))) = lower W (strip s).
Proof.
  intros Hs.
  pose proof (isascii_strip s Hs) as Hstrip.
  rewrite (lower_ascii W (strip s) Hstrip).
  assert (Hl : isascii (ascii_lower (strip s)) = true)
    by now rewrite isascii_lower.
  split; [reflexivity|].
  rewrite (lower_ascii W _ (isascii_strip _ Hl)).
  now rewrite strip_lower, lower_idempotent, strip_idempotent.
Qed.


(** The tables of the example world satisfy the facts on [str.lower]. *)
Lemma stub_world_lowercase_facts (blocks : list ResultDiv) :
  lowercase_facts (stub_world blocks).
Proof.
  assert (Hlower : forall s, lower (stub_world blocks) s = ascii_lower s).
  { intros s. unfold lower. now destruct (isascii s). }
  split; [|split]; intros s; rewrite !Hlower.
  - apply lower_has_no_upper.
  - apply lower_idempotent.
  - apply strip_lower.
Qed.

(** ** Web search *)


(** What [web_search] returns, by the place of the first [site:]. *)
Lemma web_search_unfold (W : World) (query : string) (log : list net_call) :
  web_search W query log
  = match partition "site:" query with
    | Some (base, dom) =>
        match search W (WebSearchTool__init__ 5) (strip base) log with
        | (Ok report, log') =>
            (Ok (if (String.length dom =? 0)%nat then report
                 else report ++ nl ++ "Domain filter: " ++ strip dom), log')
        | (Raise e, log') => (Ok ("Web search failed: " ++ exn_str e), log')
        end
    | None =>
        match search W (WebSearchTool__init__ 5) (strip query) log with
        | (Ok report, log') => (Ok report, log')
        | (Raise e, log') => (Ok ("Web search failed: " ++ exn_str e), log')
        end
    end.
Proof.
  unfold web_search, contains, split1. unfold_io.
  destruct (partition "site:" query) as [[base dom]|]; cbn [unpack2].
  - destruct (search W _ (strip base) log) as [[report|e] log']; [|reflexivity].
    destruct (String.length dom =? 0)%nat; reflexivity.
  - destruct (search W _ (strip query) log) as [[report|e] log']; reflexivity.
Qed.

(** C3. For every query, [web_search] returns a text and does not raise,
    whatever the network and the HTML parser do: after the one request for
    the base query, the text is the report of [search] followed by the line
    of the domain filter, if any; and when the request fails, the status is
    an error status or the parser fails, the report is [Search error: ]
    followed by the text of the exception. So does [search], for every
    search tool and query. *)
Theorem web_search_never_raises (W : World) (query : string)
    (log : list net_call) :
  (let tool := WebSearchTool__init__ 5 in
   let response :=
     session_get W "https://html.duckduckgo.com/html" (session_headers tool)
       [("q", base_query query); ("kl", "wt-wt")] 10 in
   exists report,
     web_search W query log
     = (Ok (report ++ domain_annotation query),
        (log ++ [search_call tool (base_query query)])%list)
     /\ (forall e, response = Raise e ->
           report = "Search error: " ++ exn_str e)
     /\ (forall r e, response = Ok r -> raise_for_status r = Raise e ->
           report = "Search error: " ++ exn_str e)
     /\ (forall r e, response = Ok r -> raise_for_status r = Ok tt ->
           soup_find_all_result W (text r) = Raise e ->
           report = "Search error: " ++ exn_str e)
     /\ (forall r blocks, response = Ok r -> raise_for_status r = Ok tt ->
           soup_find_all_result W (text r) = Ok blocks ->
           report = _format_output (collect_results W tool blocks [])))
  /\ (forall (self : WebSearchTool) (q : string),
        let url := "https://html.duckduckgo.com/html" in
        let params := [("q", q); ("kl", "wt-wt")] in
        let response := session_get W url (session_headers self) params 10 in
        exists report,
          search W self q log = (Ok report, (log ++ [search_call self q])%list)
          /\ (forall e, response = Raise e ->
                report = "Search error: " ++ exn_str e)
          /\ (forall r e, response = Ok r -> raise_for_status r = Raise e ->
                report = "Search error: " ++ exn_str e)
          /\ (forall r e, response = Ok r -> raise_for_status r = Ok tt ->
                soup_find_all_result W (text r) = Raise e ->
                report = "Search error: " ++ exn_str e)
          /\ (forall r blocks, response = Ok r -> raise_for_status r = Ok tt ->
                soup_find_all_result W (text r) = Ok blocks ->
                report = _format_output (collect_results W self blocks []))).
Proof.
  assert (Hsearch : forall (self : WebSearchTool) (q : string),
    exists report,
      search W self q log = (Ok report, (log ++ [search_call self q])%list)
      /\ (forall e,
            session_get W "https://html.duckduckgo.com/html"
              (session_headers self) [("q", q); ("kl", "wt-wt")] 10 = Raise e ->
            report = "Search error: " ++ exn_str e)
      /\ (forall r e,
            session_get W "https://html.duckduckgo.com/html"
              (session_headers self) [("q", q); ("kl", "wt-wt")] 10 = Ok r ->
            raise_for_status r = Raise e ->
            report = "Search error: " ++ exn_str e)
      /\ (forall r e,
            session_get W "https://html.duckduckgo.com/html"
              (session_headers self) [("q", q); ("kl", "wt-wt")] 10 = Ok r ->
            raise_for_status r = Ok tt ->
            soup_find_all_result W (text r) = Raise e ->
            report = "Search error: " ++ exn_str e)
      /\ (forall r blocks,
            session_get W "https://html.duckduckgo.com/html"
              (session_headers self) [("q", q); ("kl", "wt-wt")] 10 = Ok r ->
            raise_for_status r = Ok tt ->
            soup_find_all_result W (text r) = Ok blocks ->
            report = _format_output (collect_results W self blocks []))).
  { intros self q.
    unfold search, _fetch_search_html, _parse_and_format_results, search_call.
    unfold_io.
    destruct (session_get W _ _ _ _) as [r|e].
    - destruct (raise_for_status r) as [[]|e] eqn:Hs.
      + destruct (soup_find_all_result W (text r)) as [blocks|e] eqn:Hb;
          eexists; (split; [reflexivity|]);
          (split; [intros ? [=]|]); (split; [intros ? ? [= <-] ?; congruence|]);
          (split; [intros ? ? [= <-] ? ?; congruence|]);
          intros ? ? [= <-] ? ?; congruence.
      + eexists; (split; [reflexivity|]);
          (split; [intros ? [=]|]); (split; [intros ? ? [= <-] ?; congruence|]);
          (split; [intros ? ? [= <-] ? ?; congruence|]);
          intros ? ? [= <-] ? ?; congruence.
    - eexists; (split; [reflexivity|]).
      split; [intros ? [= <-]; reflexivity|].
      repeat split; intros; discriminate. }
  split; [|exact Hsearch].
  intros tool response. subst response.
  destruct (Hsearch tool (base_query query)) as (report & Hs & Hfail).
  exists report. split; [|exact Hfail].
  rewrite web_search_unfold. unfold base_query, domain_annotation in *.
  destruct (partition "site:" query) as [[base dom]|].
  - fold tool. rewrite Hs. destruct (String.length dom =? 0)%nat;
      [now rewrite append_nil_r|reflexivity].
  - fold tool. rewrite Hs. now rewrite append_nil_r.
Qed.

Lemma web_search_never_raises_witness :
  web_search offline_world "python site:docs.python.org" []
  = (Ok ("Search error: connection refused" ++ nl
         ++ "Domain filter: docs.python.org"),
     [search_call (WebSearchTool__init__ 5) "python"]).
Proof.
  destruct (proj1 (web_search_never_raises offline_world
                     "python site:docs.python.org" []))
    as (report & Hsearch & Hfail & _).
  rewrite Hsearch, (Hfail _ eq_refl). reflexivity.
Defined.



(** ** Page extraction *)



(** C7, at the input [http://[] (and [ftp://[]): [urlparse] raises on the
    unbalanced bracket before the validity test is reached, outside the
    [try], so the extractor raises instead of returning the labelled error.
    Nothing is loaded. *)
Theorem extractor_raises_on_unbalanced_bracket (W : World)
    (log : list net_call) :
  web_page_text_extractor W "http://[" log
  = (Raise (mkExn ValueError "Invalid IPv6 URL"), log)
  /\ web_page_text_extractor W "ftp://[" log
     = (Raise (mkExn ValueError "Invalid IPv6 URL"), log).
Proof. split; reflexivity. Qed.

(** ** The collected search results *)

Lemma collect_results_acc (W : World) (self : WebSearchTool)
    (blocks : list ResultDiv) (acc : list SearchResult) :
  (Z.of_nat (length acc) < max_results self)%Z ->
  collect_results W self blocks acc
  = take (Z.to_nat (max_results self)) (acc ++ block_entries W blocks)%list.
Proof.
  revert acc. induction blocks as [|b rest IH]; intros acc Hacc.
  - cbn. rewrite app_nil_r, take_ge; [reflexivity|lia].
  - cbn [collect_results]. unfold block_entries. cbn [omap list_omap].
    fold (block_entries W rest).
    destruct (block_entry W b) as [[entry|]|e]; cbn [from_option];
      [|apply IH, Hacc|apply IH, Hacc].
    destruct (Z.geb_spec (Z.of_nat (length (acc ++ [entry])%list)) (max_results self))
      as [Hge|Hlt].
    + rewrite length_app in Hge. cbn in Hge.
      replace (Z.to_nat (max_results self)) with (length (acc ++ [entry])%list)
        by (rewrite length_app; cbn; lia).
      rewrite (cons_middle entry acc (block_entries W rest)), app_assoc.
      rewrite take_app_length. reflexivity.
    + rewrite IH by exact Hlt. now rewrite <- app_assoc.
Qed.

(** C2, the claim at a concrete input: two result blocks that link to the
    same page give two entries with the same url. *)
Lemma search_results_keep_duplicates :
  ~ search_results_invariant 5
      (collect_results (stub_world []) (WebSearchTool__init__ 5)
         [result_block "https://a.example/x" "A" "first";
          result_block "https://a.example/x" "A again" "second"] []).
Proof.
  intros [_ Hnd]. vm_compute in Hnd.
  apply NoDup_cons in Hnd as [Hin _]. apply Hin. left.
Qed.

(** C2, amended. For [max_results >= 1] the collected results are the first
    [max_results] entries of the result blocks that have a link and a snippet
    and whose URL parses, in document order: all of them when there are fewer,
    never more than [max_results], and entries with the same url are all
    kept. *)
Theorem collect_results_is_prefix (W : World) (self : WebSearchTool)
    (blocks : list ResultDiv) :
  (1 <= max_results self)%Z ->
  collect_results W self blocks []
  = take (Z.to_nat (max_results self)) (block_entries W blocks)
  /\ length (collect_results W self blocks [])
     = Nat.min (Z.to_nat (max_results self)) (length (block_entries W blocks))
  /\ (Z.of_nat (length (collect_results W self blocks [])) <= max_results self)%Z.
Proof.
  intros Hmax.
  assert (Heq : collect_results W self blocks []
                = take (Z.to_nat (max_results self)) (block_entries W blocks)).
  { rewrite collect_results_acc by (cbn; lia). reflexivity. }
  split; [exact Heq|].
  rewrite Heq, length_take. split; [reflexivity|lia].
Qed.

Lemma collect_results_is_prefix_witness :
  let W := stub_world [] in
  let blocks := [result_block "https://a.example/1" "A" "one";
                 mkResultDiv None None;
                 result_block "https://b.example/2" "B" "two";
                 result_block "https://c.example/3" "C" "three"] in
  collect_results W (WebSearchTool__init__ 2) blocks []
  = [mkSearchResult "A" "https://a.example/1" "one" "a.example";
     mkSearchResult "B" "https://b.example/2" "two" "b.example"]
  /\ (Z.of_nat (length (collect_results W (WebSearchTool__init__ 2) blocks [])) <= 2)%Z.
Proof.
  intros W blocks.
  destruct (collect_results_is_prefix W (WebSearchTool__init__ 2) blocks)
    as (Heq & _ & Hlen); [cbn; lia|].
  split; [rewrite Heq; vm_compute; reflexivity|exact Hlen].
Defined.

(** ** URL validation *)

Lemma str_filter_app (p : ascii -> bool) (a b : string) :
  str_filter p (a ++ b) = str_filter p a ++ str_filter p b.
Proof.
  induction a as [|c a IH]; [reflexivity|].
  rewrite string_app_cons. cbn [str_filter].
  destruct (p c); [rewrite string_app_cons|]; now rewrite IH.
Qed.

Lemma str_filter_id (p : ascii -> bool) (s : string) :
  str_forallb p s = true -> str_filter p s = s.
Proof.
  induction s as [|c s IH]; [reflexivity|]. cbn [str_forallb str_filter].
  intros [-> Hs]%andb_true_iff. now rewrite IH.
Qed.

Lemma has_char_false (c : ascii) (s : string) :
  str_forallb (fun x => negb (Ascii.eqb c x)) s = true -> has_char c s = false.
Proof. unfold has_char, str_existsb. now intros ->. Qed.

Lemma break_at_app (c : ascii) (a b : string) :
  str_forallb (fun x => negb (Ascii.eqb x c)) a = true ->
  break_at c (a ++ String c b) = Some (a, b).
Proof.
  induction a as [|x a IH]; cbn [str_forallb].
  - intros _. change ("" ++ String c b) with (String c b).
    cbn [break_at]. now rewrite Ascii.eqb_refl.
  - intros [Hx Ha]%andb_true_iff. rewrite string_app_cons. cbn [break_at].
    apply negb_true_iff in Hx. now rewrite Hx, IH.
Qed.

Lemma span_app (p : ascii -> bool) (a b : string) :
  str_forallb p a = true ->
  match b with EmptyString => true | String c _ => negb (p c) end = true ->
  span p (a ++ b) = (a, b).
Proof.
  intros Ha Hb. induction a as [|x a IH].
  - change ("" ++ b) with b. destruct b as [|c b]; [reflexivity|].
    cbn [span]. apply negb_true_iff in Hb. now rewrite Hb.
  - cbn [str_forallb] in Ha. apply andb_true_iff in Ha as [Hx Ha].
    rewrite string_app_cons. cbn [span]. now rewrite Hx, IH.
Qed.

Lemma scheme_char_facts (c : ascii) :
  scheme_chars c = true ->
  negb (_UNSAFE_URL_BYTES_TO_REMOVE c) = true /\ negb (Ascii.eqb c ":") = true.
Proof. by_cases_on_char c. Qed.

Lemma isalpha_not_stripped (c : ascii) :
  isalpha c = true -> _WHATWG_C0_CONTROL_OR_SPACE c = false.
Proof. by_cases_on_char c. Qed.

Lemma plain_host_char_facts (c : ascii) :
  plain_host_char c = true ->
  negb (_UNSAFE_URL_BYTES_TO_REMOVE c) = true
  /\ negb (has_char c "/?#") = true
  /\ negb (Ascii.eqb "[" c) = true /\ negb (Ascii.eqb "]" c) = true.
Proof. by_cases_on_char c. Qed.

Lemma plain_host_char_ascii (c : ascii) :
  plain_host_char c = true -> isascii_char c = true.
Proof. by_cases_on_char c. Qed.

Lemma scheme_char_ascii (c : ascii) :
  scheme_chars c = true -> isascii_char c = true.
Proof. by_cases_on_char c. Qed.

Lemma after_host_filtered (rest : string) :
  after_host rest = true ->
  match str_filter (fun c => negb (_UNSAFE_URL_BYTES_TO_REMOVE c)) rest with
  | EmptyString => true
  | String c _ => negb (negb (has_char c "/?#"))
  end = true.
Proof.
  destruct rest as [|c rest]; [reflexivity|]. cbn [after_host str_filter].
  intros Hc.
  assert (negb (_UNSAFE_URL_BYTES_TO_REMOVE c) = true) as ->.
  { revert Hc. by_cases_on_char c. }
  now rewrite Hc.
Qed.

Lemma startswith_slashes (s : string) :
  startswith (String "/" (String "/" s)) "//" = true.
Proof.
  unfold startswith. cbn [String.prefix].
  destruct (ascii_dec "/" "/") as [_|Hne]; [|now destruct Hne].
  destruct s; reflexivity.
Qed.

(** [urlsplit] on a scheme, [://], a plain host and what follows it. *)
Lemma urlsplit_scheme_host (W : World) (c0 : ascii)
    (pre host rest : string) :
  isalpha c0 = true ->
  str_forallb scheme_chars (String c0 pre) = true ->
  str_forallb plain_host_char host = true ->
  after_host rest = true ->
  exists parsed,
    urlsplit W (String c0 pre ++ "://" ++ host ++ rest) = Ok parsed
    /\ scheme parsed = ascii_lower (String c0 pre) /\ netloc parsed = host.
Proof.
  intros Hc0 Hsch Hhost Hrest.
  assert (Hlower : lower W (String c0 pre) = ascii_lower (String c0 pre)).
  { apply lower_ascii. revert Hsch. apply str_forallb_impl.
    intros c Hc. apply (scheme_char_ascii c Hc). }
  assert (Hascii : isascii host = true).
  { revert Hhost. apply str_forallb_impl.
    intros c Hc. apply (plain_host_char_ascii c Hc). }
  set (keep := fun c => negb (_UNSAFE_URL_BYTES_TO_REMOVE c)).
  set (rest' := str_filter keep rest).
  assert (Hclean :
    str_filter keep
      (lstrip_by _WHATWG_C0_CONTROL_OR_SPACE (String c0 pre ++ "://" ++ host ++ rest))
    = String c0 pre ++ String ":" (String "/" (String "/" (host ++ rest')))).
  { rewrite string_app_cons. cbn [lstrip_by].
    rewrite (isalpha_not_stripped c0 Hc0). rewrite <- string_app_cons.
    rewrite str_filter_app.
    rewrite (str_filter_id keep (String c0 pre))
      by (revert Hsch; apply str_forallb_impl; intros c Hc; apply (scheme_char_facts c Hc)).
    f_equal. change ("://" ++ host ++ rest)
      with (String ":" (String "/" (String "/" (host ++ rest)))).
    cbn [str_filter]. change (keep ":"%char) with true. change (keep "/"%char) with true.
    cbv iota. rewrite str_filter_app.
    rewrite (str_filter_id keep host)
      by (revert Hhost; apply str_forallb_impl; intros c Hc; apply (plain_host_char_facts c Hc)).
    reflexivity. }
  assert (Hbreak :
    break_at ":" (String c0 pre ++ String ":" (String "/" (String "/" (host ++ rest'))))
    = Some (String c0 pre, String "/" (String "/" (host ++ rest')))).
  { apply break_at_app. revert Hsch. apply str_forallb_impl.
    intros c Hc. apply (scheme_char_facts c Hc). }
  assert (Hnet : _splitnetloc (String "/" (String "/" (host ++ rest'))) = (host, rest')).
  { unfold _splitnetloc. cbn [str_drop]. apply span_app.
    - revert Hhost. apply str_forallb_impl. intros c Hc.
      apply (plain_host_char_facts c Hc).
    - apply after_host_filtered, Hrest. }
  assert (Hopen : has_char "[" host = false).
  { apply has_char_false. revert Hhost. apply str_forallb_impl.
    intros c Hc. apply (plain_host_char_facts c Hc). }
  assert (Hclose : has_char "]" host = false).
  { apply has_char_false. revert Hhost. apply str_forallb_impl.
    intros c Hc. apply (plain_host_char_facts c Hc). }
  unfold urlsplit. fold keep. rewrite Hclean, Hbreak, Hc0, Hsch, Hlower.
  cbn [andb].
  rewrite startswith_slashes. rewrite Hnet, Hopen, Hclose. cbn [andb orb negb mbind result_bind].
  destruct (split_or "#" rest') as [u frag]. destruct (split_or "?" u) as [u' q].
  unfold _checknetloc. rewrite Hascii, orb_true_r. cbn [mbind result_bind].
  eexists. split; [reflexivity|]. split; reflexivity.
Qed.

Lemma urlparse_keeps_scheme_netloc (W : World)
    (url : string) (parsed : ParseResult) :
  urlsplit W url = Ok parsed ->
  exists parsed', urlparse W url = Ok parsed'
    /\ scheme parsed' = scheme parsed /\ netloc parsed' = netloc parsed.
Proof.
  intros Hs. unfold urlparse. rewrite Hs. cbn [mbind result_bind].
  destruct (bool_decide _ && has_char ";" (path parsed)).
  - destruct (_splitparams (path parsed)) as [p ps]. eexists. split; [reflexivity|].
    split; reflexivity.
  - eexists. split; [reflexivity|]. split; reflexivity.
Qed.

(** A text whose cleaned form is [http://] or [https://], a non-empty plain
    host and possibly a path, a query or a fragment passes the validation,
    and the page load is attempted, with the cleaned form. *)
Theorem http_url_passes_validation (W : World) (url sch host rest : string)
    (log : list net_call) :
  sch = "http" \/ sch = "https" ->
  host <> EmptyString ->
  str_forallb plain_host_char host = true ->
  after_host rest = true ->
  lower W (strip url) = sch ++ "://" ++ host ++ rest ->
  exists text,
    web_page_text_extractor W url log
    = (Ok text, (log ++ [PageLoad (sch ++ "://" ++ host ++ rest)])%list).
Proof.
  intros Hsch Hne Hhost Hrest Hclean.
  assert (Hparse : exists parsed,
             urlparse W (sch ++ "://" ++ host ++ rest) = Ok parsed
             /\ scheme parsed = sch /\ netloc parsed = host).
  { destruct Hsch as [-> | ->].
    - destruct (urlsplit_scheme_host W "h" "ttp" host rest)
        as (p & Hp & Hs & Hn); [reflexivity|reflexivity|assumption|assumption|].
      destruct (urlparse_keeps_scheme_netloc _ _ _ Hp) as (p' & Hp' & Hs' & Hn').
      exists p'. rewrite Hs', Hn', Hs, Hn. auto.
    - destruct (urlsplit_scheme_host W "h" "ttps" host rest)
        as (p & Hp & Hs & Hn); [reflexivity|reflexivity|assumption|assumption|].
      destruct (urlparse_keeps_scheme_netloc _ _ _ Hp) as (p' & Hp' & Hs' & Hn').
      exists p'. rewrite Hs', Hn', Hs, Hn. auto. }
  destruct Hparse as (parsed & Hp & Hs & Hn).
  unfold web_page_text_extractor. rewrite Hclean. unfold_io.
  rewrite Hp, Hs, Hn.
  assert (bool_decide (sch ∈ ["http"; "https"]) = true) as ->
    by (destruct Hsch as [-> | ->]; reflexivity).
  assert ((String.length host =? 0)%nat = false) as ->
    by (destruct host; [contradiction|reflexivity]).
  cbn [negb orb].
  destruct (loader_load W _) as [[|d ds]|e]; eexists; reflexivity.
Qed.

Lemma http_url_passes_validation_witness :
  exists text,
    web_page_text_extractor (stub_world []) "  HTTPS://Example.com/Docs?Q=1 " []
    = (Ok text, ([] ++ [PageLoad ("https" ++ "://" ++ "example.com" ++ "/docs?q=1")])%list).
Proof.
  apply (http_url_passes_validation (stub_world [])
           "  HTTPS://Example.com/Docs?Q=1 " "https" "example.com" "/docs?q=1" []).
  - right. reflexivity.
  - discriminate.
  - reflexivity.
  - reflexivity.
  - vm_compute. reflexivity.
Defined.

(** ** Redirect resolution *)

(** The resolved link, by cases: the first [uddg] value of the query,
    unquoted once more, for a wrapper that has one; the link itself
    otherwise. Nothing is raised. *)
Lemma unwrap_ddg_redirect_unfold (W : World) (ddg_url : string) :
  _unwrap_ddg_redirect W ddg_url
  = Ok (if startswith ddg_url "https://duckduckgo.com/l/" then
          match urlparse W ddg_url with
          | Ok parsed =>
              match parse_qs (query parsed) !! "uddg" with
              | Some (value :: _) => unquote value
              | _ => ddg_url
              end
          | Raise _ => ddg_url
          end
        else ddg_url).
Proof.
  unfold _unwrap_ddg_redirect, try_except, getitem, first_item.
  destruct (startswith ddg_url _); [|reflexivity].
  destruct (urlparse _ ddg_url) as [parsed|e]; [|reflexivity].
  cbn [mbind result_bind].
  destruct (parse_qs (query parsed) !! "uddg") as [[|value values]|]; reflexivity.
Qed.

(** C4, at the wrapper of the destination [https://example.com/a%20b]: the
    [uddg] parameter decodes to that destination, and the resolution returns
    [https://example.com/a b], the destination decoded a second time. *)
Theorem unwrap_ddg_redirect_decodes_twice (W : World) :
  let wrapper :=
    "https://duckduckgo.com/l/?uddg=https%3A%2F%2Fexample.com%2Fa%2520b&rut=0" in
  (exists parsed,
      urlparse W wrapper = Ok parsed
      /\ parse_qs (query parsed) !! "uddg" = Some ["https://example.com/a%20b"])
  /\ _unwrap_ddg_redirect W wrapper = Ok "https://example.com/a b".
Proof.
  split.
  - exists (mkParseResult "https" "duckduckgo.com" "/l/" ""
              "uddg=https%3A%2F%2Fexample.com%2Fa%2520b&rut=0" "").
    split; vm_compute; reflexivity.
  - vm_compute. reflexivity.
Qed.

(** ** Further properties of the search client *)

Lemma unquote_without_percent (s : string) :
  has_char "%" s = false -> unquote s = s.
Proof.
  unfold has_char, str_existsb. induction s as [|c s IH]; [reflexivity|].
  cbn [str_forallb]. intros H.
  destruct (Ascii.eqb "%" c) eqn:Hc; [discriminate H|].
  cbn [negb andb] in H. cbn [unquote].
  rewrite Ascii.eqb_sym, Hc. f_equal. apply IH, H.
Qed.

(** The resolution of a link never raises. A link that is not a wrapper, a
    wrapper that does not parse and a wrapper with no [uddg] value are
    returned unchanged. A wrapper whose first [uddg] value decodes to [D] is
    resolved to [unquote D], which is [D] when [D] has no percent sign. *)
Theorem unwrap_ddg_redirect_cases (W : World) (ddg_url : string) :
  (exists resolved, _unwrap_ddg_redirect W ddg_url = Ok resolved)
  /\ (startswith ddg_url "https://duckduckgo.com/l/" = false ->
      _unwrap_ddg_redirect W ddg_url = Ok ddg_url)
  /\ (forall e, urlparse W ddg_url = Raise e ->
      _unwrap_ddg_redirect W ddg_url = Ok ddg_url)
  /\ (forall parsed,
        urlparse W ddg_url = Ok parsed ->
        parse_qs (query parsed) !! "uddg" = None ->
        _unwrap_ddg_redirect W ddg_url = Ok ddg_url)
  /\ (forall parsed D values,
        startswith ddg_url "https://duckduckgo.com/l/" = true ->
        urlparse W ddg_url = Ok parsed ->
        parse_qs (query parsed) !! "uddg" = Some (D :: values) ->
        _unwrap_ddg_redirect W ddg_url = Ok (unquote D)
        /\ (has_char "%" D = false -> _unwrap_ddg_redirect W ddg_url = Ok D)).
Proof.
  rewrite unwrap_ddg_redirect_unfold.
  split; [eauto|]. split; [intros ->; reflexivity|].
  split; [intros e ->; destruct (startswith _ _); reflexivity|].
  split.
  - intros parsed -> ->. destruct (startswith _ _); reflexivity.
  - intros parsed D values -> -> ->. split; [reflexivity|].
    intros HD. now rewrite (unquote_without_percent D HD).
Qed.

Lemma unwrap_ddg_redirect_cases_witness :
  _unwrap_ddg_redirect (stub_world [])
    "https://duckduckgo.com/l/?uddg=https%3A%2F%2Fexample.com%2Fpage&rut=0"
  = Ok "https://example.com/page"
  /\ _unwrap_ddg_redirect (stub_world []) "https://duckduckgo.com/l/?rut=0"
     = Ok "https://duckduckgo.com/l/?rut=0".
Proof.
  split.
  - destruct (unwrap_ddg_redirect_cases (stub_world [])
                "https://duckduckgo.com/l/?uddg=https%3A%2F%2Fexample.com%2Fpage&rut=0")
      as (_ & _ & _ & _ & H).
    refine (proj2 (H (mkParseResult "https" "duckduckgo.com" "/l/" ""
                        "uddg=https%3A%2F%2Fexample.com%2Fpage&rut=0" "")
                     "https://example.com/page" [] _ _ _) _);
      vm_compute; reflexivity.
  - destruct (unwrap_ddg_redirect_cases (stub_world [])
                "https://duckduckgo.com/l/?rut=0") as (_ & _ & _ & H & _).
    refine (H (mkParseResult "https" "duckduckgo.com" "/l/" "" "rut=0" "") _ _);
      vm_compute; reflexivity.
Defined.

Lemma collect_results_entries (W : World) (self : WebSearchTool)
    (blocks : list ResultDiv) (acc : list SearchResult) (r : SearchResult) :
  r ∈ collect_results W self blocks acc ->
  r ∈ acc \/ exists b, b ∈ blocks /\ block_entry W b = Ok (Some r).
Proof.
  revert acc. induction blocks as [|b rest IH]; intros acc; cbn [collect_results].
  - auto.
  - destruct (block_entry W b) as [[entry|]|e] eqn:Hb.
    + destruct (Z.of_nat (length (acc ++ [entry])%list) >=? max_results self)%Z.
      * intros [Hr| ->%list_elem_of_singleton]%elem_of_app; [auto|].
        right. exists b. split; [left|exact Hb].
      * intros [[Hr| ->%list_elem_of_singleton]%elem_of_app|(b' & Hin & Hb')]%IH;
          [auto| |].
        -- right. exists b. split; [left|exact Hb].
        -- right. exists b'. split; [right; exact Hin|exact Hb'].
    + intros [Hr|(b' & Hin & Hb')]%IH; [auto|].
      right. exists b'. split; [right; exact Hin|exact Hb'].
    + intros [Hr|(b' & Hin & Hb')]%IH; [auto|].
      right. exists b'. split; [right; exact Hin|exact Hb'].
Qed.

(** Every collected result comes from a block of the page, its url is the
    resolved link of that block and never fails to parse, and its domain is
    the host of that url. With no block that yields an entry the report is
    the fixed text [No results found.]. *)
Theorem search_results_domain_is_host (W : World) (self : WebSearchTool)
    (blocks : list ResultDiv) :
  (forall r, r ∈ collect_results W self blocks [] ->
     exists b link parsed,
       b ∈ blocks /\ find_result__a b = Some link
       /\ _unwrap_ddg_redirect W (default EmptyString (href link)) = Ok (url r)
       /\ urlparse W (url r) = Ok parsed
       /\ domain r = netloc parsed)
  /\ (block_entries W blocks = [] ->
      _format_output (collect_results W self blocks []) = "No results found.").
Proof.
  split.
  - intros r [Hr|(b & Hin & Hb)]%collect_results_entries; [inversion Hr|].
    unfold block_entry in Hb.
    destruct (find_result__a b) as [link|] eqn:Hl; [|discriminate Hb].
    destruct (find_result__snippet b) as [snip|]; [|discriminate Hb].
    destruct (_unwrap_ddg_redirect W _) as [u|e] eqn:Hu; [|discriminate Hb].
    cbn [mbind result_bind] in Hb.
    destruct (urlparse _ u) as [parsed|e] eqn:Hp; [|discriminate Hb].
    cbn [mbind result_bind] in Hb. injection Hb as <-.
    exists b, link, parsed. cbn [url domain]. auto.
  - intros Hnone.
    assert (Hempty : forall acc, collect_results W self blocks acc = acc).
    { revert Hnone. unfold block_entries.
      induction blocks as [|b rest IH]; intros Hnone acc; [reflexivity|].
      cbn [collect_results]. cbn [omap list_omap] in Hnone.
      destruct (block_entry W b) as [[entry|]|e]; [discriminate Hnone|auto|auto]. }
    rewrite Hempty. reflexivity.
Qed.

Lemma search_results_domain_is_host_witness :
  let W := stub_world [] in
  let blocks :=
    [result_block "https://duckduckgo.com/l/?uddg=https%3A%2F%2Fdocs.python.org%2F3%2F"
                  "Python documentation" "The official documentation."] in
  exists b link parsed,
    b ∈ blocks /\ find_result__a b = Some link
    /\ _unwrap_ddg_redirect W (default EmptyString (href link))
       = Ok "https://docs.python.org/3/"
    /\ urlparse W "https://docs.python.org/3/" = Ok parsed
    /\ "docs.python.org" = netloc parsed.
Proof.
  intros W blocks.
  apply (proj1 (search_results_domain_is_host W (WebSearchTool__init__ 5) blocks)
               (mkSearchResult "Python documentation" "https://docs.python.org/3/"
                               "The official documentation." "docs.python.org")).
  vm_compute. left.
Defined.

(** ** The agent graph *)

Section AgentGraph.
Import Agent AgentClaims.
Local Open Scope list_scope.
Local Open Scope nat_scope.

Variable SYSTEM_PROMPT : string.
Variable llm_invoke : list Message -> result Message.
Variable run_tool : ToolCall -> result string.

Local Notation "'G'" := (agent_graph SYSTEM_PROMPT llm_invoke run_tool).

Lemma my_agent_graph (api_key : string) :
  api_key <> EmptyString ->
  my_agent SYSTEM_PROMPT llm_invoke run_tool (Some api_key)
  = Ok (agent_graph SYSTEM_PROMPT llm_invoke run_tool).
Proof. destruct api_key; [congruence|reflexivity]. Qed.

Lemma run_at_end (budget : nat) (state : MessagesState) (log : LlmLog) :
  run G budget END state log = (Finished state, log).
Proof. destruct budget; reflexivity. Qed.

Lemma run_assistant_step (budget : nat) (state : MessagesState) (log : LlmLog) :
  run G (S budget) "assistant" state log
  = match llm_invoke (SYSTEM_MESSAGE SYSTEM_PROMPT :: state) with
    | Ok response =>
        run G budget (tools_condition (state ++ [response])) (state ++ [response])
          (log ++ [SYSTEM_MESSAGE SYSTEM_PROMPT :: state])
    | Raise e => (Crashed e, log ++ [SYSTEM_MESSAGE SYSTEM_PROMPT :: state])
    end.
Proof.
  change (run G (S budget) "assistant" state log)
    with (match assistant_node SYSTEM_PROMPT llm_invoke state log with
          | (Ok update, log') =>
              run G budget (next_node G "assistant" (state ++ update))
                (state ++ update) log'
          | (Raise e, log') => (Crashed e, log')
          end).
  unfold assistant_node.
  destruct (llm_invoke _) as [response|e]; reflexivity.
Qed.

Lemma run_tools_step (budget : nat) (state : MessagesState) (log : LlmLog) :
  run G (S budget) "tools" state log
  = match tool_node run_tool state log with
    | (Ok update, log') => run G budget "assistant" (state ++ update) log'
    | (Raise e, log') => (Crashed e, log')
    end.
Proof. reflexivity. Qed.





End AgentGraph.




(** When the model answers without requesting a tool, the run finishes after
    that one invocation: the answer is appended to the messages and nothing
    else is executed. *)
Theorem agent_finishes_on_final_answer (SYSTEM_PROMPT api_key content : string)
    (llm_invoke : list Agent.Message -> result Agent.Message)
    (run_tool : Agent.ToolCall -> result string)
    (input : Agent.MessagesState) (budget : nat) :
  api_key <> EmptyString ->
  llm_invoke (Agent.SYSTEM_MESSAGE SYSTEM_PROMPT :: input)
  = Ok (Agent.AIMessage content []) ->
  exists graph,
    Agent.my_agent SYSTEM_PROMPT llm_invoke run_tool (Some api_key) = Ok graph
    /\ Agent.invoke graph (S budget) input
       = (Agent.Finished (input ++ [Agent.AIMessage content []])%list,
          [Agent.SYSTEM_MESSAGE SYSTEM_PROMPT :: input]).
Proof.
  intros Hkey Hanswer.
  exists (AgentClaims.agent_graph SYSTEM_PROMPT llm_invoke run_tool).
  split; [apply my_agent_graph, Hkey|].
  unfold Agent.invoke.
  change (Agent.next_node (AgentClaims.agent_graph SYSTEM_PROMPT llm_invoke run_tool)
            Agent.START input) with "assistant".
  rewrite run_assistant_step, Hanswer.
  replace (Agent.tools_condition (input ++ [Agent.AIMessage content []])%list)
    with Agent.END
    by (unfold Agent.tools_condition; now rewrite last_snoc).
  apply run_at_end.
Qed.

Lemma agent_finishes_on_final_answer_witness :
  exists graph,
    Agent.my_agent "You are a helpful assistant."
      (fun _ => Ok (Agent.AIMessage "4" [])) (fun _ => Ok "") (Some "key") = Ok graph
    /\ Agent.invoke graph 25 [Agent.HumanMessage "What is 2 + 2?"]
       = (Agent.Finished [Agent.HumanMessage "What is 2 + 2?"; Agent.AIMessage "4" []],
          [[Agent.SystemMessage "You are a helpful assistant.";
            Agent.HumanMessage "What is 2 + 2?"]]).
Proof.
  apply (agent_finishes_on_final_answer "You are a helpful assistant." "key" "4"
           (fun _ => Ok (Agent.AIMessage "4" [])) (fun _ => Ok "")
           [Agent.HumanMessage "What is 2 + 2?"] 24).
  - discriminate.
  - reflexivity.
Defined.

(** ** The calculator in the loop *)




(** ** The math query tool *)

Lemma startswith_app (p s : string) : startswith (p ++ s) p = true.
Proof. apply prefix_app. Qed.

(** Whatever the environment and the API do, the text [wolfram_query]
    returns carries the tool label, and at most one query is attempted. The
    text carries the [ERROR] label exactly when the application id is unset
    or empty, or the client raises an exception other than [StopIteration];
    with the id unset or empty no query is attempted at all. *)
Theorem wolfram_query_labels (getenv : string -> option string)
    (client_query : string -> string -> Wolfram.Answer) (expression : string) :
  let outcome := Wolfram.wolfram_query getenv client_query expression in
  let no_key := getenv "WOLFRAM_APP_ID" = None
                \/ getenv "WOLFRAM_APP_ID" = Some EmptyString in
  startswith (fst outcome) "[Tool: wolfram_query" = true
  /\ (length (snd outcome) <= 1)%nat
  /\ (no_key <-> snd outcome = [])
  /\ (startswith (fst outcome) "[Tool: wolfram_query ERROR]" = true
      <-> no_key
          \/ exists app_id e,
               getenv "WOLFRAM_APP_ID" = Some app_id
               /\ client_query app_id expression = Wolfram.Raises e).
Proof.
  intros outcome no_key. subst outcome no_key. unfold Wolfram.wolfram_query.
  destruct (getenv "WOLFRAM_APP_ID") as [[|c0 id]|] eqn:Henv.
  - cbn [fst snd length]. repeat split; auto; vm_compute; auto.
  - cbn [fst snd length].
    split; [|split; [lia|split]].
    + destruct (client_query _ expression) as [[|[[[|c t]|]] rest]| |e];
        cbn [head]; vm_compute; reflexivity.
    + split; [intros [H|H]; discriminate H|discriminate].
    + destruct (client_query (String c0 id) expression)
        as [[|[[[|c t]|]] rest]| |e] eqn:Hq; cbn [head].
      all: split;
        [ intros Hp; try (vm_compute in Hp; discriminate Hp)
        | intros [[H|H]|(a & e' & Ha & He)];
          try discriminate H;
          try (injection Ha as <-; rewrite Hq in He; discriminate He) ].
      * right. eauto.
      * vm_compute. reflexivity.
  - cbn [fst snd length]. repeat split; auto; vm_compute; auto.
Qed.

(** ** The encyclopedia tool *)

Lemma comprehension_ok {A B} (f : A -> result B) (g : A -> B) (l : list A) :
  Forall (fun x => f x = Ok (g x)) l ->
  Wiki.comprehension f l = Ok (map g l).
Proof.
  induction 1 as [|x l Hx _ IH]; [reflexivity|].
  cbn [Wiki.comprehension map]. rewrite Hx, IH. reflexivity.
Qed.

Lemma comprehension_raises {A B} (f : A -> result B) (c : exn_class) (l : list A) :
  Forall (fun x => (exists y, f x = Ok y) \/ raises c (f x)) l ->
  Exists (fun x => raises c (f x)) l ->
  raises c (Wiki.comprehension f l).
Proof.
  induction l as [|x l IH]; intros Hall Hex; [inversion Hex|].
  apply Forall_cons in Hall as [Hx Hall]. cbn [Wiki.comprehension].
  destruct Hx as [[y Hy]|[msg Hmsg]].
  - rewrite Hy. cbn [mbind result_bind].
    apply Exists_cons in Hex as [[msg Hmsg]|Hex]; [congruence|].
    destruct (IH Hall Hex) as [msg ->]. exists msg. reflexivity.
  - rewrite Hmsg. exists msg. reflexivity.
Qed.

(** [wiki_search] does not catch anything: an exception of the loader is
    raised to the caller as it is, and so is the [KeyError] of a document
    whose metadata has no [source]. When every document has a source the
    text is the documents' [Source: ...] blocks joined by blank lines (the
    empty text for no document), however many documents the loader returns. *)
Theorem wiki_search_outcomes
    (WikipediaLoader_load : string -> Z -> result (list Wiki.Document))
    (query : string) :
  (forall e, WikipediaLoader_load query 2 = Raise e ->
     Wiki.wiki_search WikipediaLoader_load query = Raise e)
  /\ (forall docs, WikipediaLoader_load query 2 = Ok docs ->
        (Exists (fun doc => Wiki.metadata doc !! "source" = None) docs ->
           raises KeyError (Wiki.wiki_search WikipediaLoader_load query))
        /\ (Forall (fun doc => is_Some (Wiki.metadata doc !! "source")) docs ->
            Wiki.wiki_search WikipediaLoader_load query
            = Ok (String.concat (nl ++ nl)
                    (map (fun doc =>
                            "Source: "
                            ++ default EmptyString (Wiki.metadata doc !! "source")
                            ++ nl ++ Wiki.page_content doc) docs)))).
Proof.
  unfold Wiki.wiki_search. split.
  - intros e ->. reflexivity.
  - intros docs ->. cbn [mbind result_bind]. split.
    + intros Hex.
      match goal with |- raises _ (mbind _ (Wiki.comprehension ?f docs)) =>
        destruct (comprehension_raises f KeyError docs) as [msg ->]
      end.
      * apply Forall_forall. intros doc _. unfold getitem.
        destruct (Wiki.metadata doc !! "source") as [src|]; [left; eauto|].
        right. eexists. reflexivity.
      * eapply Exists_impl; [exact Hex|]. intros doc Hdoc. unfold getitem.
        cbn beta. rewrite Hdoc. eexists. reflexivity.
      * eexists. reflexivity.
    + intros Hall.
      erewrite comprehension_ok; [reflexivity|].
      eapply Forall_impl; [exact Hall|]. intros doc [src Hsrc]. unfold getitem.
      cbn beta. rewrite Hsrc. reflexivity.
Qed.

Lemma wiki_search_outcomes_witness :
  let doc src body :=
    Wiki.mkDocument {[ "source" := src ]} body in
  let loader := fun (_ : string) (_ : Z) =>
    Ok [doc "https://en.wikipedia.org/wiki/Rocq" "Rocq is a proof assistant.";
        Wiki.mkDocument ∅ "A page with no source."] in
  raises KeyError (Wiki.wiki_search loader "Rocq").
Proof.
  intros doc loader.
  destruct (wiki_search_outcomes loader "Rocq") as [_ H].
  destruct (H _ eq_refl) as [Hmissing _].
  apply Hmissing. apply Exists_cons_tl, Exists_cons_hd. reflexivity.
Defined.

(** ** More on the collected search results *)

Lemma collect_results_skip (W : World) (self : WebSearchTool) (b : ResultDiv)
    (before after : list ResultDiv) (acc : list SearchResult) :
  (forall entry, block_entry W b <> Ok (Some entry)) ->
  collect_results W self (before ++ b :: after) acc
  = collect_results W self (before ++ after) acc.
Proof.
  intros Hb. revert acc. induction before as [|x before IH]; intros acc.
  - cbn [app collect_results].
    destruct (block_entry W b) as [[entry|]|e]; [|reflexivity|reflexivity].
    now destruct (Hb entry).
  - cbn [app collect_results].
    destruct (block_entry W x) as [[entry|]|e]; [|apply IH|apply IH].
    destruct (_ >=? _)%Z; [reflexivity|apply IH].
Qed.

(** A result block without its link or without its snippet, and a block
    whose resolved link does not parse, are skipped silently: wherever such
    a block stands in the page, the collected results are those of the page
    without it. *)
Theorem collect_results_skips_unusable_block (W : World) (self : WebSearchTool)
    (b : ResultDiv) (before after : list ResultDiv) :
  (find_result__a b = None
   \/ find_result__snippet b = None
   \/ exists link resolved e,
        find_result__a b = Some link
        /\ _unwrap_ddg_redirect W (default EmptyString (href link)) = Ok resolved
        /\ urlparse W resolved = Raise e) ->
  collect_results W self (before ++ b :: after) []
  = collect_results W self (before ++ after) [].
Proof.
  intros Hb. apply collect_results_skip. intros entry. unfold block_entry.
  destruct Hb as [->| [Hs | (link & resolved & e & -> & Hu & Hp)]].
  - discriminate.
  - rewrite Hs. destruct (find_result__a b); discriminate.
  - destruct (find_result__snippet b); [|discriminate].
    rewrite Hu. cbn [mbind result_bind]. rewrite Hp. discriminate.
Qed.

Lemma collect_results_skips_unusable_block_witness :
  let W := stub_world [] in
  let a := result_block "https://a.example/1" "A" "one" in
  let c := result_block "https://c.example/3" "C" "three" in
  collect_results W (WebSearchTool__init__ 5)
    ([a] ++ result_block "http://[broken" "B" "two" :: [c]) []
  = collect_results W (WebSearchTool__init__ 5) ([a] ++ [c]) [].
Proof.
  intros W a c.
  apply (collect_results_skips_unusable_block W (WebSearchTool__init__ 5)
           (result_block "http://[broken" "B" "two") [a] [c]).
  right. right.
  exists (mkTag (Some "http://[broken") "B"), "http://[broken",
         (mkExn ValueError "Invalid IPv6 URL").
  split; [reflexivity|]. split; reflexivity.
Defined.

Lemma block_entries_app (W : World) (l1 l2 : list ResultDiv) :
  block_entries W (l1 ++ l2) = (block_entries W l1 ++ block_entries W l2)%list.
Proof. unfold block_entries. apply omap_app. Qed.

(** For [max_results >= 1], collecting is stable: the results of a page are
    kept, in place, when more blocks follow on the page or when the cap is
    raised (new results only come after them), and once the cap is reached
    nothing that follows on the page changes them. *)
Theorem collect_results_stable (W : World) (self : WebSearchTool)
    (blocks more : list ResultDiv) (larger : Z) :
  (1 <= max_results self)%Z ->
  collect_results W self blocks []
    `prefix_of` collect_results W self (blocks ++ more) []
  /\ ((max_results self <= larger)%Z ->
      collect_results W self blocks []
        `prefix_of`
      collect_results W (mkWebSearchTool larger (session_headers self)) blocks [])
  /\ (Z.of_nat (length (collect_results W self blocks [])) = max_results self ->
      collect_results W self (blocks ++ more) []
      = collect_results W self blocks []).
Proof.
  intros Hmax.
  rewrite !collect_results_acc by (cbn; lia). cbn [app].
  rewrite block_entries_app.
  set (n := Z.to_nat (max_results self)).
  set (entries := block_entries W blocks).
  split; [|split].
  - rewrite take_app. apply prefix_app_r. reflexivity.
  - intros Hlarger.
    rewrite collect_results_acc by (cbn; lia). cbn [app max_results].
    fold entries.
    replace (take n entries) with (take n (take (Z.to_nat larger) entries)).
    + apply prefix_take.
    + rewrite take_take. f_equal. lia.
  - rewrite length_take. intros Hlen.
    rewrite take_app_le by lia. reflexivity.
Qed.

Lemma collect_results_stable_witness :
  let W := stub_world [] in
  let tool := WebSearchTool__init__ 1 in
  let blocks := [result_block "https://a.example/1" "A" "one"] in
  let more := [result_block "https://b.example/2" "B" "two"] in
  collect_results W tool (blocks ++ more) [] = collect_results W tool blocks [].
Proof.
  intros W tool blocks more.
  destruct (collect_results_stable W tool blocks more 5) as (_ & _ & Hfull);
    [cbn; lia|].
  apply Hfull. reflexivity.
Defined.

(** ** The formatted report *)

Lemma occurs_here (x t : string) : occurs x (x ++ t).
Proof. exists "", t. reflexivity. Qed.

Lemma occurs_app_r (x s t : string) : occurs x t -> occurs x (s ++ t).
Proof.
  intros (a & b & ->). exists (s ++ a), b. now rewrite append_assoc.
Qed.

Lemma occurs_trans (x y s : string) : occurs x y -> occurs y s -> occurs x s.
Proof.
  intros (a & b & ->) (a' & b' & ->). exists (a' ++ a), (b ++ b').
  now rewrite !append_assoc.
Qed.

Lemma occurs_concat (sep x : string) (l : list string) :
  x ∈ l -> occurs x (String.concat sep l).
Proof.
  induction l as [|y l IH]; [intros H; inversion H|].
  intros [->|Hin]%elem_of_cons.
  - destruct l as [|z l]; cbn [String.concat].
    + exists "", "". now rewrite append_nil_r.
    + apply occurs_here.
  - destruct l as [|z l]; [inversion Hin|].
    cbn [String.concat]. do 2 apply occurs_app_r. apply IH, Hin.
Qed.

Lemma occurs_contains (x s : string) : occurs x s -> contains x s = true.
Proof. intros H. apply contains_spec, H. Qed.

(** The report tells an empty result list from any other: it is the fixed
    text [No results found.] exactly when there is no result, and begins with
    the header [## Search Results] otherwise. No result is lost in it: the
    title, url, domain and snippet of every result occur in the report. *)
Theorem format_output_shows_every_result (results : list SearchResult) :
  (_format_output results = "No results found." <-> results = [])
  /\ (results <> [] -> startswith (_format_output results) "## Search Results" = true)
  /\ (forall r, r ∈ results ->
        contains (title r) (_format_output results) = true
        /\ contains (url r) (_format_output results) = true
        /\ contains (domain r) (_format_output results) = true
        /\ contains (snippet r) (_format_output results) = true).
Proof.
  split; [|split].
  - split; [|intros ->; reflexivity].
    destruct results as [|r rs]; [reflexivity|].
    cbn [_format_output imap String.concat].
    rewrite (string_app_cons "#"). discriminate.
  - destruct results as [|r rs]; [congruence|]. intros _.
    cbn [_format_output imap String.concat]. apply startswith_app.
  - intros r Hr.
    destruct results as [|r0 rs]; [inversion Hr|].
    assert (Hentry : exists idx, occurs (format_entry idx r) (_format_output (r0 :: rs))).
    { apply list_elem_of_lookup in Hr as [i Hi].
      exists (S i). unfold _format_output.
      apply occurs_concat. right.
      apply elem_of_lookup_imap. exists i, r. auto. }
    destruct Hentry as [idx Hentry].
    repeat split; apply occurs_contains; (eapply occurs_trans; [|exact Hentry]);
      unfold format_entry;
      repeat first [apply occurs_here | apply occurs_app_r].
Qed.

(** ** The success path of web search *)

Lemma raise_for_status_ok (r : Response) :
  (status_code r < 400 \/ 600 <= status_code r)%Z -> raise_for_status r = Ok tt.
Proof.
  intros H. unfold raise_for_status.
  destruct (Z.leb_spec 400 (status_code r)), (Z.ltb_spec (status_code r) 500),
    (Z.leb_spec 500 (status_code r)), (Z.ltb_spec (status_code r) 600);
    cbn [andb]; try reflexivity; lia.
Qed.

(** When the request is answered with a status outside 400..599 (a 2xx, but
    also a 1xx or 3xx answer) and the page parses, a query without [site:]
    yields exactly the formatted report of the results collected from that
    page with the default cap of 5, after one request that carries the
    trimmed query. *)
Theorem web_search_success_path (W : World) (query : string)
    (log : list net_call) (response : Response) (blocks : list ResultDiv) :
  contains "site:" query = false ->
  session_get W "https://html.duckduckgo.com/html"
    (session_headers (WebSearchTool__init__ 5))
    [("q", strip query); ("kl", "wt-wt")] 10 = Ok response ->
  (status_code response < 400 \/ 600 <= status_code response)%Z ->
  soup_find_all_result W (text response) = Ok blocks ->
  web_search W query log
  = (Ok (_format_output (collect_results W (WebSearchTool__init__ 5) blocks [])),
     (log ++ [search_call (WebSearchTool__init__ 5) (strip query)])%list).
Proof.
  intros Hsite Hget Hstatus Hsoup.
  rewrite web_search_unfold. unfold contains in Hsite.
  destruct (partition "site:" query) as [[base dom]|]; [discriminate Hsite|].
  unfold search, _fetch_search_html, _parse_and_format_results, search_call.
  unfold_io. rewrite Hget, (raise_for_status_ok _ Hstatus), Hsoup. reflexivity.
Qed.

Lemma web_search_success_path_witness :
  web_search
    (mkWorld ascii_lower (fun s => s) (fun _ => Ok tt)
       (fun u _ _ _ => Ok (mkResponse 304 "Not Modified" u "<html></html>"))
       (fun _ => Ok [result_block "https://docs.python.org/3/" "Python" "Docs."])
       (fun _ => Ok []))
    "  python docs " []
  = (Ok (_format_output
           [mkSearchResult "Python" "https://docs.python.org/3/" "Docs."
                           "docs.python.org"]),
     [search_call (WebSearchTool__init__ 5) "python docs"]).
Proof.
  rewrite (web_search_success_path _ "  python docs " []
             (mkResponse 304 "Not Modified" "https://html.duckduckgo.com/html"
                         "<html></html>")
             [result_block "https://docs.python.org/3/" "Python" "Docs."]).
  - reflexivity.
  - reflexivity.
  - reflexivity.
  - left. reflexivity.
  - reflexivity.
Defined.

(** ** The outcome of a page extraction *)

(** Whenever the extractor returns a text, the label the text begins with
    tells which outcome it was, whatever the URL and the content of the page
    are: an invalid URL, a failure of the loader (which is reported, never
    raised), a page with no document, or the extracted text. A page load is
    logged in the last three cases only. *)
Theorem extractor_label_tells_outcome (W : World) (url text : string)
    (log log' : list net_call) :
  web_page_text_extractor W url log = (Ok text, log') ->
  let url_clean := lower W (strip url) in
  exists parsed,
    urlparse W url_clean = Ok parsed
    /\ extraction_case text
       = Some (if valid_page_url parsed
               then match loader_load W url_clean with
                    | Ok [] => NoContent
                    | Ok (_ :: _) => Extracted
                    | Raise _ => LoadFailed
                    end
               else InvalidUrl)
    /\ log' = (if valid_page_url parsed
               then (log ++ [PageLoad url_clean])%list else log).
Proof.
  intros Hrun url_clean. revert Hrun.
  unfold web_page_text_extractor, valid_page_url. fold url_clean. unfold_io.
  destruct (urlparse W url_clean) as [parsed|e];
    [|discriminate].
  intros Hrun. exists parsed. split; [reflexivity|].
  destruct (bool_decide (scheme parsed ∈ ["http"; "https"]));
    cbn [negb orb andb] in *.
  - destruct (String.length (netloc parsed) =? 0)%nat; cbn [negb] in *.
    + injection Hrun as <- <-. split; [|reflexivity].
      unfold extraction_case. now rewrite startswith_app.
    + destruct (loader_load W url_clean) as [[|d ds]|e];
        injection Hrun as <- <-; (split; [|reflexivity]); unfold extraction_case.
      * rewrite startswith_app.
        replace (startswith _ "[Tool: WebBaseLoader ERROR] Invalid URL: ")
          with false by (vm_compute; reflexivity).
        replace (startswith _ "[Tool: WebBaseLoader ERROR] Failed to extract content from ")
          with false by (vm_compute; reflexivity).
        reflexivity.
      * rewrite <- append_assoc, startswith_app.
        replace (startswith _ "[Tool: WebBaseLoader ERROR] Invalid URL: ")
          with false by (vm_compute; reflexivity).
        replace (startswith _ "[Tool: WebBaseLoader ERROR] Failed to extract content from ")
          with false by (vm_compute; reflexivity).
        replace (startswith _ "[Tool: WebBaseLoader] No content found at ")
          with false by (vm_compute; reflexivity).
        reflexivity.
      * rewrite startswith_app.
        replace (startswith _ "[Tool: WebBaseLoader ERROR] Invalid URL: ")
          with false by (vm_compute; reflexivity).
        reflexivity.
  - injection Hrun as <- <-. split; [|reflexivity].
    unfold extraction_case. now rewrite startswith_app.
Qed.

Lemma extractor_label_tells_outcome_witness :
  extraction_case
    ("[Tool: WebBaseLoader ERROR] Failed to extract content from "
     ++ "https://example.com/" ++ ": " ++ "connection refused")
  = Some LoadFailed.
Proof.
  destruct (extractor_label_tells_outcome offline_world "https://Example.com/ "
              ("[Tool: WebBaseLoader ERROR] Failed to extract content from "
               ++ "https://example.com/" ++ ": " ++ "connection refused")
              [] [PageLoad "https://example.com/"] eq_refl)
    as (parsed & Hparsed & Hcase & _).
  vm_compute in Hparsed. injection Hparsed as <-. exact Hcase.
Defined.

(** ** Algebra of the calculator *)

Lemma SFadd_comm (x y : spec_float) : SFadd prec emax x y = SFadd prec emax y x.
Proof.
  destruct x as [sx|sx| |sx mx ex], y as [sy|sy| |sy my ey];
    try reflexivity; try (destruct sx, sy; reflexivity).
  unfold SFadd. rewrite (Z.min_comm ex ey). f_equal. apply Z.add_comm.
Qed.

Lemma SFmul_comm (x y : spec_float) : SFmul prec emax x y = SFmul prec emax y x.
Proof.
  destruct x as [sx|sx| |sx mx ex], y as [sy|sy| |sy my ey];
    try reflexivity; try (destruct sx, sy; reflexivity).
  unfold SFmul. now rewrite (xorb_comm sx sy), (Pos.mul_comm mx my), (Z.add_comm ex ey).
Qed.

Lemma arith_comm (zop : Z -> Z -> Z)
    (fop : spec_float -> spec_float -> spec_float) (x y : number) :
  (forall a b, zop a b = zop b a) ->
  (forall f g, fop f g = fop g f) ->
  arith zop fop x y = arith zop fop y x.
Proof.
  intros Hz Hf. destruct x as [a|f], y as [b|g]; cbn [arith to_float].
  - now rewrite Hz.
  - destruct (int_to_float a); cbn [mbind result_bind]; [now rewrite Hf|reflexivity].
  - destruct (int_to_float b); cbn [mbind result_bind]; [now rewrite Hf|reflexivity].
  - cbn [mbind result_bind]. now rewrite Hf.
Qed.

(** Addition and multiplication do not depend on the order of the operands:
    for all numbers, ints and floats mixed, [add]/[sum] and [multiply] give
    the same float, or the same error, when the operands are swapped. *)
Theorem calculator_add_multiply_commute (a b : number) :
  calculator a b "add" = calculator b a "add"
  /\ calculator a b "sum" = calculator b a "sum"
  /\ calculator a b "multiply" = calculator b a "multiply".
Proof.
  assert (Hadd : py_add a b = py_add b a)
    by (apply arith_comm; [apply Z.add_comm|apply SFadd_comm]).
  assert (Hmul : py_mul a b = py_mul b a)
    by (apply arith_comm; [apply Z.mul_comm|apply SFmul_comm]).
  unfold calculator. cbn [String.eqb Ascii.eqb Bool.eqb orb].
  now rewrite Hadd, Hmul.
Qed.

(** ** Every run of the agent graph *)

Section AgentRunProofs.
Import Agent AgentClaims AgentRuns.
Local Open Scope list_scope.
Local Open Scope nat_scope.

Variable SYSTEM_PROMPT : string.
Variable llm_invoke : list Message -> result Message.
Variable run_tool : ToolCall -> result string.

Local Notation "'G'" := (agent_graph SYSTEM_PROMPT llm_invoke run_tool).

Lemma run_invariants (input : MessagesState) (budget : nat) :
  forall node state log,
    node = "assistant" \/ node = "tools"
    \/ (node = END /\ tools_condition state = END) ->
    input `prefix_of` state ->
    Forall (model_call_of SYSTEM_PROMPT input) log ->
    run_ok SYSTEM_PROMPT input node budget log (run G budget node state log).
Proof.
  induction budget as [|budget IH]; intros node state log Hnode Hpre Hlog.
  - destruct Hnode as [->|[->|[-> Hend]]]; unfold run_ok;
      [change (run G 0 "assistant" state log)
         with (OutOfSteps "assistant" state, log)
      |change (run G 0 "tools" state log) with (OutOfSteps "tools" state, log)
      |rewrite run_at_end];
      cbn [fst snd final_state]; (split; [assumption|]);
      (split; [lia|]); (split; [intros ? [= <-]; assumption|]);
      intros ? [= <-]; assumption.
  - destruct Hnode as [->|[->|[-> Hend]]].
    + rewrite run_assistant_step.
      assert (Hlog' : Forall (model_call_of SYSTEM_PROMPT input)
                        (log ++ [SYSTEM_MESSAGE SYSTEM_PROMPT :: state])).
      { apply Forall_app. split; [assumption|].
        apply Forall_singleton. exists state. auto. }
      destruct (llm_invoke _) as [response|e].
      * assert (Hnext : tools_condition (state ++ [response]) = "tools"
                        \/ tools_condition (state ++ [response]) = END).
        { unfold tools_condition. rewrite last_snoc.
          destruct response as [| |? [|]|]; auto. }
        assert (Hpre' : input `prefix_of` state ++ [response])
          by (etrans; [exact Hpre|apply prefix_app_r; reflexivity]).
        destruct (IH (tools_condition (state ++ [response]))
                    (state ++ [response])
                    (log ++ [SYSTEM_MESSAGE SYSTEM_PROMPT :: state]))
          as (Hcalls & Hlen & Hstate & Hfin); [|assumption|assumption|].
        { destruct Hnext as [->| Hn]; [auto|]. right. right. split; assumption. }
        repeat split; try assumption.
        rewrite length_app in Hlen. cbn [length] in Hlen.
        unfold invocations in *. cbn [String.eqb Ascii.eqb Bool.eqb].
        change (Nat.div2 (S (S budget))) with (S (Nat.div2 budget)).
        destruct Hnext as [Hn|Hn]; rewrite Hn in Hlen |- *;
          [change (String.eqb "tools" "assistant") with false in Hlen
          |change (String.eqb END "assistant") with false in Hlen];
          cbv iota in Hlen; lia.
      * repeat split; cbn [fst snd final_state]; try assumption; try discriminate.
        rewrite length_app. unfold invocations.
        cbn [String.eqb Ascii.eqb Bool.eqb length].
        change (Nat.div2 (S (S budget))) with (S (Nat.div2 budget)).
        apply Nat.add_le_mono_l, le_n_S, Nat.le_0_l.
    + rewrite run_tools_step. unfold tool_node.
      destruct (last state) as [[| |content calls|]|];
        try (repeat split; cbn [fst snd final_state]; try assumption;
             try discriminate; lia).
      destruct (run_calls run_tool calls) as [update|e];
        [|repeat split; cbn [fst snd final_state]; try assumption;
          try discriminate; lia].
      destruct (IH "assistant" (state ++ update) log)
        as (Hcalls & Hlen & Hstate & Hfin); [auto| |assumption|].
      { etrans; [exact Hpre|apply prefix_app_r; reflexivity]. }
      repeat split; assumption.
    + rewrite run_at_end.
      repeat split; cbn [fst snd final_state]; try assumption; try lia;
        try (intros ? [= <-]; assumption).
Qed.

End AgentRunProofs.

(** Whatever the model and the tools answer, a run of the graph [my_agent]
    builds keeps the conversation and bounds its cost: every model call is
    given the system message first and then messages that begin with the
    input; within a budget of [n] steps the model is called at most
    [(n + 1) / 2] times; the messages the run ends with begin with the
    input; and a run that finishes ends on a message that requests no
    tool. *)
Theorem agent_run_invariants (SYSTEM_PROMPT : string)
    (llm_invoke : list Agent.Message -> result Agent.Message)
    (run_tool : Agent.ToolCall -> result string) (api_key : option string)
    (graph : Agent.StateGraph) (input : Agent.MessagesState) (budget : nat) :
  Agent.my_agent SYSTEM_PROMPT llm_invoke run_tool api_key = Ok graph ->
  let outcome := fst (Agent.invoke graph budget input) in
  let log := snd (Agent.invoke graph budget input) in
  Forall (AgentRuns.model_call_of SYSTEM_PROMPT input) log
  /\ (length log <= Nat.div2 (S budget))%nat
  /\ (forall state, AgentRuns.final_state outcome = Some state ->
        input `prefix_of` state)
  /\ (forall state, outcome = Agent.Finished state ->
        Agent.tools_condition state = Agent.END).
Proof.
  intros Hgraph.
  assert (graph = AgentClaims.agent_graph SYSTEM_PROMPT llm_invoke run_tool) as ->.
  { destruct api_key as [[|c key]|]; try discriminate Hgraph.
    injection Hgraph as <-. reflexivity. }
  apply (run_invariants SYSTEM_PROMPT llm_invoke run_tool input budget
           "assistant" input []); [auto|reflexivity|constructor].
Qed.

Lemma agent_run_invariants_witness :
  let outcome :=
    Agent.invoke AgentClaims.stub_graph 6 [Agent.HumanMessage "What is 2 + 2?"] in
  (length (snd outcome) <= 3)%nat
  /\ (forall state, AgentRuns.final_state (fst outcome) = Some state ->
        [Agent.HumanMessage "What is 2 + 2?"] `prefix_of` state).
Proof.
  destruct (agent_run_invariants "You are a helpful assistant."
              AgentClaims.stub_llm (fun _ => Ok "4.0") (Some "key")
              AgentClaims.stub_graph [Agent.HumanMessage "What is 2 + 2?"] 6
              eq_refl) as (_ & Hlen & Hstate & _).
  split; [exact Hlen|exact Hstate].
Defined.

(** ** Where the exceptions of the calculator come from *)


Lemma to_float_raises (x : number) (e : exn) :
  to_float x = Raise e -> exn_cls e = OverflowError /\ exists z, x = PyInt z.
Proof.
  destruct x as [z|f]; [|discriminate]. cbn [to_float]. unfold int_to_float.
  intros H. split; [|eauto].
  destruct (binary_normalize prec emax z 0 false); try discriminate H.
  injection H as <-. reflexivity.
Qed.

Lemma float_of_result_raises (r : result number) (e : exn) :
  (result_ ← r; to_float result_) = Raise e ->
  r = Raise e \/ (exn_cls e = OverflowError /\ exists z, r = Ok (PyInt z)).
Proof.
  destruct r as [x|e']; cbn [mbind result_bind]; [|intros [= ->]; auto].
  intros H. destruct (to_float_raises x e H) as [Hc [z ->]]. eauto.
Qed.

Lemma float_pair_raises (x y : number) (k : spec_float -> spec_float -> result number)
    (e : exn) :
  (f ← to_float x; g ← to_float y; k f g) = Raise e ->
  (exn_cls e = OverflowError /\ ((exists z, x = PyInt z) \/ (exists z, y = PyInt z)))
  \/ exists f g, to_float x = Ok f /\ to_float y = Ok g /\ k f g = Raise e.
Proof.
  destruct (to_float x) as [f|e1] eqn:Ex; cbn [mbind result_bind].
  - destruct (to_float y) as [g|e2] eqn:Ey; cbn [mbind result_bind].
    + intros H. right. eauto.
    + intros [= ->]. left. destruct (to_float_raises y e Ey) as [? ?]. auto.
  - intros [= ->]. left. destruct (to_float_raises x e Ex) as [? ?]. auto.
Qed.

Lemma arith_raises (zop : Z -> Z -> Z)
    (fop : spec_float -> spec_float -> spec_float) (a b : number) (e : exn) :
  arith zop fop a b = Raise e ->
  exn_cls e = OverflowError /\ ((exists z, a = PyInt z) \/ (exists z, b = PyInt z)).
Proof.
  unfold arith. intros H.
  destruct a as [x|f], b as [y|g]; try discriminate H;
    apply float_pair_raises in H as [H|(f' & g' & _ & _ & H)];
    try assumption; discriminate H.
Qed.

Lemma arith_int (zop : Z -> Z -> Z)
    (fop : spec_float -> spec_float -> spec_float) (a b : number) (z : Z) :
  arith zop fop a b = Ok (PyInt z) -> exists x, a = PyInt x.
Proof.
  unfold arith. destruct a as [x|f]; [eauto|]. intros H. exfalso.
  destruct b as [y|g]; cbn [to_float mbind result_bind] in H;
    [destruct (int_to_float y)|]; discriminate H.
Qed.

Lemma float_zero_py_eq (g : spec_float) :
  SFeqb g float_zero = true -> float_eq_int g 0 = true.
Proof. destruct g as [s|[]| |[] m e]; try discriminate; reflexivity. Qed.

Lemma zero_divisor_py_eq (b : number) (g : spec_float) :
  to_float b = Ok g -> SFeqb g float_zero = true -> py_eq b (PyInt 0) = true.
Proof.
  destruct b as [y|g']; cbn [to_float py_eq].
  - intros Hg Hz. rewrite (int_to_float_nonzero y g Hg Hz). reflexivity.
  - intros [= ->]. apply float_zero_py_eq.
Qed.

Lemma py_truediv_raises (a b : number) (e : exn) :
  py_eq b (PyInt 0) = false ->
  py_truediv a b = Raise e ->
  exn_cls e = OverflowError /\ ((exists z, a = PyInt z) \/ (exists z, b = PyInt z)).
Proof.
  intros Hb H. unfold py_truediv in H.
  assert (Hfloat :
    (f ← to_float a; g ← to_float b; q ← float_true_divide f g; Ok (PyFloat q))
    = Raise e ->
    exn_cls e = OverflowError
    /\ ((exists z, a = PyInt z) \/ (exists z, b = PyInt z))).
  { intros H'. apply float_pair_raises in H' as [H'|(f & g & _ & Hg & H')];
      [assumption|exfalso].
    unfold float_true_divide in H'.
    destruct (SFeqb g float_zero) eqn:Ez; [|discriminate H'].
    rewrite (zero_divisor_py_eq b g Hg Ez) in Hb. discriminate Hb. }
  destruct a as [x|f], b as [y|g]; try (apply Hfloat; exact H).
  split; [|eauto]. cbn [py_eq] in Hb.
  unfold int_true_divide in H. rewrite Hb in H.
  destruct (x =? 0)%Z; [discriminate H|].
  destruct (SFdiv_core_binary prec emax (Z.abs x) 0 (Z.abs y) 0) as [[q d] l].
  destruct (binary_round_aux prec emax _ q d l);
    cbn [mbind result_bind] in H; try discriminate H.
  injection H as <-. reflexivity.
Qed.

Lemma py_mod_raises (a b : number) (e : exn) :
  py_mod a b = Raise e ->
  (exn_cls e = ZeroDivisionError /\ py_eq b (PyInt 0) = true)
  \/ (exn_cls e = OverflowError
      /\ ((exists z, a = PyInt z) \/ (exists z, b = PyInt z))).
Proof.
  intros H. unfold py_mod in H.
  assert (Hfloat :
    (f ← to_float a; g ← to_float b; r ← float_rem f g; Ok (PyFloat r))
    = Raise e ->
    (exn_cls e = ZeroDivisionError /\ py_eq b (PyInt 0) = true)
    \/ (exn_cls e = OverflowError
        /\ ((exists z, a = PyInt z) \/ (exists z, b = PyInt z)))).
  { intros H'. apply float_pair_raises in H' as [H'|(f & g & _ & Hg & H')];
      [auto|left].
    unfold float_rem in H'.
    destruct (SFeqb g float_zero) eqn:Ez.
    - injection H' as <-. split; [reflexivity|].
      exact (zero_divisor_py_eq b g Hg Ez).
    - exfalso. destruct (SFeqb (fmod f g) float_zero); [discriminate H'|].
      destruct (xorb _ _); discriminate H'. }
  destruct a as [x|f], b as [y|g]; try (apply Hfloat; exact H).
  left. cbn [py_eq]. destruct (y =? 0)%Z; [|discriminate H].
  injection H as <-. auto.
Qed.

Lemma py_mod_int (a b : number) (z : Z) :
  py_mod a b = Ok (PyInt z) -> exists x, a = PyInt x.
Proof.
  unfold py_mod. destruct a as [x|f]; [eauto|]. intros H. exfalso.
  destruct b as [y|g]; cbn [to_float mbind result_bind] in H;
    [destruct (int_to_float y); cbn [mbind result_bind] in H|];
    try discriminate H;
    (destruct (float_rem _ _); discriminate H).
Qed.

Lemma py_truediv_float (a b : number) (z : Z) :
  py_truediv a b <> Ok (PyInt z).
Proof.
  unfold py_truediv. intros H.
  destruct a as [x|f], b as [y|g]; cbn [to_float mbind result_bind] in H;
    repeat match type of H with
      | context [mbind _ ?r] =>
          destruct r; cbn [mbind result_bind] in H
      end; discriminate H.
Qed.

(** Every exception of the calculator has its cause in the call: a
    [ValueError] means an operation name outside the supported ones, or
    [divide]/[div] by a [b] equal to zero; a [ZeroDivisionError] means
    [modulus]/[mod] by a [b] equal to zero, so [divide] never raises it; an
    [OverflowError] means a supported operation on at least one int operand,
    so float operands never raise it; and no other exception is raised. *)
Theorem calculator_exception_causes (a b : number) (operation : string) (e : exn) :
  calculator a b operation = Raise e ->
  exception_cause a b operation (exn_cls e).
Proof.
  unfold calculator. intros H.
  apply float_of_result_raises in H.
  assert (Harith : forall zop fop,
    operation ∈ supported_operations ->
    arith zop fop a b = Raise e
    \/ exn_cls e = OverflowError /\ (exists z, arith zop fop a b = Ok (PyInt z)) ->
    exception_cause a b operation (exn_cls e)).
  { intros zop fop Hop [Hr|[Hc [z Hz]]].
    - destruct (arith_raises zop fop a b e Hr) as [-> ?]. split; assumption.
    - rewrite Hc. split; [assumption|]. left. exact (arith_int zop fop a b z Hz). }
  destruct (String.eqb_spec operation "add") as [->|N1]; cbn [orb] in H.
  { apply (Harith Z.add (SFadd prec emax)); [in_list|exact H]. }
  destruct (String.eqb_spec operation "sum") as [->|N2]; cbn [orb] in H.
  { apply (Harith Z.add (SFadd prec emax)); [in_list|exact H]. }
  destruct (String.eqb_spec operation "subtract") as [->|N3].
  { apply (Harith Z.sub (SFsub prec emax)); [in_list|exact H]. }
  destruct (String.eqb_spec operation "multiply") as [->|N4].
  { apply (Harith Z.mul (SFmul prec emax)); [in_list|exact H]. }
  assert (Hdiv : operation ∈ ["divide"; "div"] ->
    operation ∈ supported_operations ->
    (if py_eq b (PyInt 0)
     then Raise (mkExn ValueError "Cannot divide by zero.")
     else py_truediv a b) = Raise e
    \/ exn_cls e = OverflowError
       /\ (exists z, (if py_eq b (PyInt 0)
                      then Raise (mkExn ValueError "Cannot divide by zero.")
                      else py_truediv a b) = Ok (PyInt z)) ->
    exception_cause a b operation (exn_cls e)).
  { intros Hop Hsup H'. destruct (py_eq b (PyInt 0)) eqn:Hb.
    - destruct H' as [[= <-]|[_ [z Hz]]]; [|discriminate Hz].
      right. split; [assumption|exact Hb].
    - destruct H' as [Hr|[_ [z Hz]]]; [|destruct (py_truediv_float a b z Hz)].
      destruct (py_truediv_raises a b e Hb Hr) as [-> ?].
      split; assumption. }
  destruct (String.eqb_spec operation "divide") as [->|N5]; cbn [orb] in H.
  { apply Hdiv; [in_list|in_list|exact H]. }
  destruct (String.eqb_spec operation "div") as [->|N6]; cbn [orb] in H.
  { apply Hdiv; [in_list|in_list|exact H]. }
  assert (Hmod : operation ∈ ["modulus"; "mod"] ->
    operation ∈ supported_operations ->
    py_mod a b = Raise e
    \/ exn_cls e = OverflowError /\ (exists z, py_mod a b = Ok (PyInt z)) ->
    exception_cause a b operation (exn_cls e)).
  { intros Hop Hsup [Hr|[Hc [z Hz]]].
    - destruct (py_mod_raises a b e Hr) as [[-> ?]|[-> ?]]; split; assumption.
    - rewrite Hc. split; [assumption|]. left. exact (py_mod_int a b z Hz). }
  destruct (String.eqb_spec operation "modulus") as [->|N7]; cbn [orb] in H.
  { apply Hmod; [in_list|in_list|exact H]. }
  destruct (String.eqb_spec operation "mod") as [->|N8]; cbn [orb] in H.
  { apply Hmod; [in_list|in_list|exact H]. }
  destruct H as [[= <-]|[_ [z Hz]]]; [|discriminate Hz].
  left. unfold supported_operations. rewrite !not_elem_of_cons.
  repeat split; try assumption. apply not_elem_of_nil.
Qed.

Lemma calculator_exception_causes_witness :
  "mod" ∈ ["modulus"; "mod"] /\ py_eq (PyFloat (S754_zero true)) (PyInt 0) = true.
Proof.
  exact (calculator_exception_causes (PyInt 7) (PyFloat (S754_zero true)) "mod"
           (mkExn ZeroDivisionError "float modulo") eq_refl).
Defined.

(** ** Cleaning a URL twice *)

(** The extractor answers for the cleaned form of its argument: two URLs
    with the same cleaned form ([url.strip().lower()]) get the same answer
    and the same page load. Stripping is idempotent on every text. On ASCII
    text, and on every text by the facts on the Unicode tables, stripping
    and lower-casing commute and cleaning is idempotent, so a URL and its
    cleaned form get the same answer and the same page load. *)
Theorem extractor_depends_on_cleaned_url (W : World) (url : string)
    (log : list net_call) :
  (isascii url = true \/ lowercase_facts W ->
   strip (lower W url) = lower W (strip url)
   /\ lower W (strip (lower W (strip url))) = lower W (strip url)
   /\ web_page_text_extractor W (lower W (strip url)) log
      = web_page_text_extractor W url log)
  /\ strip (strip url) = strip url
  /\ (forall url', lower W (strip url') = lower W (strip url) ->
        web_page_text_extractor W url' log = web_page_text_extractor W url log).
Proof.
  split; [|split].
  - intros Hcase.
    assert (Hcomm : strip (lower W url) = lower W (strip url)).
    { destruct Hcase as [Hascii|(_ & _ & Hcomm)]; [|apply Hcomm].
      rewrite (proj1 (clean_ascii W url Hascii)), (lower_ascii W url Hascii).
      apply strip_lower. }
    assert (Hclean : lower W (strip (lower W (strip url))) = lower W (strip url)).
    { destruct Hcase as [Hascii|(_ & Hidem & Hcomm')].
      - apply (clean_ascii W url Hascii).
      - now rewrite Hcomm', Hidem, strip_idempotent. }
    split; [exact Hcomm|]. split; [exact Hclean|].
    unfold web_page_text_extractor. rewrite Hclean. reflexivity.
  - apply strip_idempotent.
  - intros url' Hsame. unfold web_page_text_extractor. rewrite Hsame. reflexivity.
Qed.

Lemma extractor_depends_on_cleaned_url_witness :
  web_page_text_extractor (stub_world []) "http://example.com/a" []
  = web_page_text_extractor (stub_world []) (utf8 8195 ++ "HTTP://Example.com/A ") [].
Proof.
  destruct (extractor_depends_on_cleaned_url (stub_world [])
              (utf8 8195 ++ "HTTP://Example.com/A ") []) as (Hclean & _ & _).
  destruct (Hclean (or_intror (stub_world_lowercase_facts []))) as (_ & _ & Hsame).
  exact Hsame.
Defined.
